(** * chrome-extension-fetch: the CRX header parser and the redirect-following
      fetcher of [index.js], embedded in Rocq.

    The development follows [index.js] function by function:
    - [Buffer]  : the part of Node's [Buffer] that [index.js] calls
                  ([toString("ascii", ..)], [readUInt32LE], [slice]);
    - [Crx]     : [getZipStartOffset];
    - [Fs]      : [convertCRXtoZIP] over a file system and a console;
    - [Fetch]   : [fetchWithRedirect] over an abstract HTTPS endpoint.

    JavaScript numbers are modelled as [Z]: every number the program computes
    is an integer below [2^53], where doubles are exact. *)

From Stdlib Require Import ZArith Lia.
From Stdlib Require Strings.Byte.
From stdpp Require Import base list strings gmap pretty.

Local Open Scope Z_scope.

(** ** Exceptions and results *)

(** The two ways [Buffer.readUInt32LE] rejects an offset, after Node's
    [boundsError]: both are [RangeError]s. *)
Inductive range_code := ERR_BUFFER_OUT_OF_BOUNDS | ERR_OUT_OF_RANGE.

(** What the program can throw: a plain [new Error(message)], a [RangeError]
    of the buffer API, a system error of [fs] (with its code and path). *)
Inductive exn :=
| Error (message : string)
| RangeError (code : range_code)
| SystemError (code : string) (path : string).

(** A computation either returns or throws. *)
Inductive result (A : Type) :=
| Ok (a : A)
| Throw (e : exn).
Arguments Ok {A} a.
Arguments Throw {A} e.

Definition bind {A B} (r : result A) (k : A -> result B) : result B :=
  match r with
  | Ok a => k a
  | Throw e => Throw e
  end.

Notation "'let*' x ':=' r 'in' k" := (bind r (fun x => k))
  (at level 10, x name, r at level 100, k at level 200).

(** ** Node's Buffer *)

Module Buffer.

Abbreviation byte := Byte.byte.

(** A buffer is its sequence of bytes. *)
Abbreviation t := (list byte).

(** [buffer[i]] as a number. *)
Definition unsigned (b : byte) : Z := Z.of_N (Byte.to_N b).

Definition of_Z (z : Z) : byte :=
  match Byte.of_N (Z.to_N (z mod 256)) with
  | Some b => b
  | None => Byte.x00
  end.

(** Decoding one byte under the ["ascii"] encoding: Node unsets the highest
    bit of the byte and decodes the rest as latin1. *)
Definition ascii_decode (b : byte) : Ascii.ascii :=
  Ascii.ascii_of_N (N.land (Byte.to_N b) 127).

(** [buffer.toString("ascii", start, end)]: [end] is clamped to the length of
    the buffer, an empty range gives the empty string. *)
Definition toString_ascii (buffer : t) (start end_ : nat) : string :=
  String.string_of_list_ascii
    (ascii_decode <$> take (end_ - start) (drop start buffer)).

(** [buffer.readUInt32LE(offset)]. Node reads [first = this[offset]] and
    [last = this[offset + 3]]; when one of them is [undefined] it throws
    through [boundsError(offset, this.length - 4)], which is
    [ERR_BUFFER_OUT_OF_BOUNDS] for a buffer of fewer than four bytes and
    [ERR_OUT_OF_RANGE] otherwise. *)
Definition readUInt32LE (buffer : t) (offset : nat) : result Z :=
  match buffer !! offset, buffer !! (offset + 1)%nat,
        buffer !! (offset + 2)%nat, buffer !! (offset + 3)%nat with
  | Some first, Some b1, Some b2, Some last =>
      Ok (unsigned first + unsigned b1 * 2 ^ 8 + unsigned b2 * 2 ^ 16
          + unsigned last * 2 ^ 24)
  | _, _, _, _ =>
      if Z.of_nat (length buffer) - 4 <? 0
      then Throw (RangeError ERR_BUFFER_OUT_OF_BOUNDS)
      else Throw (RangeError ERR_OUT_OF_RANGE)
  end.

(** [buffer.slice(start)]: a negative [start] counts from the end, and the
    result is clamped to the buffer (an offset past the end gives the empty
    buffer, never an exception). *)
Definition slice (buffer : t) (start : Z) : t :=
  if start <? 0
  then drop (Z.to_nat (Z.max 0 (Z.of_nat (length buffer) + start))) buffer
  else drop (Z.to_nat start) buffer.

End Buffer.

(** ** The header parser *)

Module Crx.
Import Buffer.

Definition dquote : string := String (Ascii.ascii_of_nat 34) EmptyString.

(** ['Not a valid CRX file (missing "Cr24").'] *)
Definition not_a_valid_crx : string :=
  "Not a valid CRX file (missing " +:+ dquote +:+ "Cr24" +:+ dquote +:+ ").".

(** [`Unsupported CRX version: ${version}`] *)
Definition unsupported_version (version : Z) : string :=
  "Unsupported CRX version: " +:+ pretty version.

(** [getZipStartOffset(buffer)], index.js lines 108-125. *)
Definition getZipStartOffset (buffer : Buffer.t) : result Z :=
  if negb (String.eqb (toString_ascii buffer 0 4) "Cr24")
  then Throw (Error not_a_valid_crx)
  else
    let* version := readUInt32LE buffer 4 in
    if version =? 2 then
      let* pubKeyLen := readUInt32LE buffer 8 in
      let* sigLen := readUInt32LE buffer 12 in
      Ok (16 + pubKeyLen + sigLen)
    else if version =? 3 then
      let* headerSize := readUInt32LE buffer 8 in
      Ok (12 + headerSize)
    else Throw (Error (unsupported_version version)).

(** The names the specification gives to the two errors of the parser. *)
Definition FormatError : exn := Error not_a_valid_crx.
Definition UnsupportedVersionError (version : Z) : exn :=
  Error (unsupported_version version).

(** The magic tag ["Cr24"] as bytes. *)
Definition magic : Buffer.t := [Byte.x43; Byte.x72; Byte.x32; Byte.x34].

(** [LE32(n)]: the four bytes of [n], least significant first (what
    [writeUInt32LE] stores for [0 <= n < 2^32]). *)
Definition LE32 (n : Z) : Buffer.t :=
  [of_Z n; of_Z (n / 2 ^ 8); of_Z (n / 2 ^ 16); of_Z (n / 2 ^ 24)].

End Crx.

(** ** The conversion step *)

Module Fs.
Import Buffer Crx.

(** The part of the process state that [fs] and [console] act on: the files
    by path, and the lines printed so far. Writes to a path are taken to
    succeed. *)
Record state := State {
  files : gmap string Buffer.t;
  console : list string;
}.

(** [fs.readFileSync(path)]: the whole file, or [ENOENT]. *)
Definition readFileSync (path : string) (st : state) : result Buffer.t :=
  match files st !! path with
  | Some data => Ok data
  | None => Throw (SystemError "ENOENT" path)
  end.

(** [fs.writeFileSync(path, data)]: creates or replaces the file. *)
Definition writeFileSync (path : string) (data : Buffer.t) (st : state) : state :=
  {| files := <[path := data]> (files st); console := console st |}.

Definition console_log (line : string) (st : state) : state :=
  {| files := files st; console := console st ++ [line] |}.

(** [convertCRXtoZIP(crxPath, zipPath)], index.js lines 133-140. An exception
    leaves the function at the statement that throws. *)
Definition convertCRXtoZIP (crxPath zipPath : string) (st : state)
  : result unit * state :=
  match readFileSync crxPath st with
  | Throw e => (Throw e, st)
  | Ok buffer =>
      match getZipStartOffset buffer with
      | Throw e => (Throw e, st)
      | Ok zipOffset =>
          let zipData := slice buffer zipOffset in
          let st := writeFileSync zipPath zipData st in
          let st := console_log ("ZIP extracted and saved to: " +:+ zipPath) st in
          (Ok tt, st)
      end
  end.

End Fs.

(** ** The redirect-following fetcher *)

Module Fetch.
Import Buffer.

(** The [options] object of a request: [{ headers: {...} }]. *)
Record options := Options { req_headers : gmap string string }.

(** The response [res] that [https.get] hands to its callback: status code,
    headers, and the bytes its stream yields. *)
Record IncomingMessage := Response {
  res_statusCode : Z;
  res_headers : gmap string string;
  res_body : Buffer.t;
}.

(** The object the promise resolves with: [{ statusCode, headers,
    bodyStream: res }]. *)
Record fetched := Fetched {
  statusCode : Z;
  headers : gmap string string;
  bodyStream : IncomingMessage;
}.

(** What the fetcher does to the outside, in order: a request sent with
    [https.get(url, options, ..)], a response drained with [res.resume()]. *)
Inductive event :=
| EvGet (url : string) (opts : options)
| EvResume (res : IncomingMessage).

Definition TooManyRedirectsError : exn := Error "Too many redirects".

(** [statusCode >= 300 && statusCode < 400 && headers.location]: the
    redirect target when the condition is truthy. An absent or empty
    [location] header is falsy. *)
Definition redirect_target (res : IncomingMessage) : option string :=
  if (300 <=? res_statusCode res) && (res_statusCode res <? 400) then
    match res_headers res !! "location" with
    | Some location => if String.eqb location "" then None else Some location
    | None => None
    end
  else None.

(** [{ statusCode, headers, bodyStream: res }] *)
Definition as_is (res : IncomingMessage) : fetched :=
  {| statusCode := res_statusCode res;
     headers := res_headers res;
     bodyStream := res |}.

Section endpoint.

(** The network: a request either calls back with a response or emits
    ["error"], and the state of the network moves on. *)
Context {world : Type}.
Variable get : world -> string -> options -> result IncomingMessage * world.

(** [fetchWithRedirect(url, options = {}, maxRedirects = 5)], index.js
    lines 16-48. The promise settles with the result; [None] is a promise
    that has not settled within [fuel] requests. *)
Fixpoint fetchWithRedirect (fuel : nat) (url : string)
    (options : option options) (maxRedirects : option Z) (w : world)
  : option (result fetched * list event * world) :=
  let options := default (Options ∅) options in
  let maxRedirects := default 5 maxRedirects in
  match fuel with
  | O => None
  | S fuel =>
      match get w url options with
      | (Throw err, w) => Some (Throw err, [EvGet url options], w)
      | (Ok res, w) =>
          match redirect_target res with
          | Some redirectUrl =>
              if maxRedirects =? 0 then
                Some (Throw TooManyRedirectsError,
                      [EvGet url options; EvResume res], w)
              else
                match fetchWithRedirect fuel redirectUrl (Some options)
                        (Some (maxRedirects - 1)) w with
                | Some (r, trace, w) =>
                    Some (r, EvGet url options :: EvResume res :: trace, w)
                | None => None
                end
          | None => Some (Ok (as_is res), [EvGet url options], w)
          end
      end
  end.

(** The requests of a trace, in order. *)
Definition requests (trace : list event) : list (string * options) :=
  omap (fun e => match e with
                 | EvGet url opts => Some (url, opts)
                 | EvResume _ => None
                 end) trace.

(** The responses to the first [k] requests of a chain that starts at
    [url], when all of them redirect: each hop with its response, then the
    network and the URL the chain has reached. *)
Fixpoint redirects (k : nat) (url : string) (opts : options) (w : world)
  : option (list (string * IncomingMessage) * world * string) :=
  match k with
  | O => Some ([], w, url)
  | S k =>
      match get w url opts with
      | (Ok res, w1) =>
          match redirect_target res with
          | Some location =>
              match redirects k location opts w1 with
              | Some (hops, w2, url2) => Some ((url, res) :: hops, w2, url2)
              | None => None
              end
          | None => None
          end
      | (Throw _, _) => None
      end
  end.

(** A network on which every response redirects. *)
Definition always_redirects : Prop :=
  forall w url opts, exists res w' location,
    get w url opts = (Ok res, w') /\ redirect_target res = Some location.

(** The events of following the hops of a chain. *)
Definition hop_events (opts : options)
    (hops : list (string * IncomingMessage)) : list event :=
  hops ≫= fun hop => [EvGet hop.1 opts; EvResume hop.2].

(** [downloadCRX(extensionId, chromeVersion, outputFilename)], index.js
    lines 58-87. The body stream is piped into the file until it ends. *)
Definition downloadCRX (fuel : nat)
    (extensionId chromeVersion outputFilename : string)
    (w : world) (st : Fs.state)
  : option (result unit * list event * world * Fs.state) :=
  let url :=
    "https://clients2.google.com/service/update2/crx?response=redirect&prodversion="
    +:+ chromeVersion +:+ "&acceptformat=crx2,crx3&x=id%3D"
    +:+ extensionId +:+ "%26uc" in
  let st := Fs.console_log ("Attempting CRX download from: " +:+ url) st in
  let options :=
    {| req_headers :=
         {[ "User-Agent" :=
              "Mozilla/5.0 (Windows NT 10.0; Win64; x64) AppleWebKit/537.36 (KHTML, like Gecko) Chrome/"
              +:+ chromeVersion +:+ " Safari/537.36";
            "Accept" := "*/*" ]} |} in
  match fetchWithRedirect fuel url (Some options) None w with
  | None => None
  | Some (Throw e, trace, w) => Some (Throw e, trace, w, st)
  | Some (Ok response, trace, w) =>
      if negb (statusCode response =? 200) then
        Some (Throw (Error ("Download failed, final status code: "
                            +:+ pretty (statusCode response))),
              trace ++ [EvResume (bodyStream response)], w, st)
      else
        let st := Fs.writeFileSync outputFilename
                    (res_body (bodyStream response)) st in
        let st := Fs.console_log ("CRX file saved to: " +:+ outputFilename) st in
        Some (Ok tt, trace, w, st)
  end.

End endpoint.

(** Two endpoints to run the fetcher against. [loop_get] answers every
    request with a 302 to one and the same location. [scripted_get] serves the
    responses of a script in order, whatever is requested, and resets the
    connection when the script is over. *)
Definition found (location : string) : IncomingMessage :=
  Response 302 {[ "location" := location ]} [].

Definition ok (body : Buffer.t) : IncomingMessage :=
  Response 200 {[ "content-type" := "application/x-chrome-extension" ]} body.

Definition loop_get (w : unit) (url : string) (opts : options)
  : result IncomingMessage * unit :=
  (Ok (found "https://clients2.google.com/loop"), w).

Definition scripted_get (w : list IncomingMessage) (url : string)
    (opts : options) : result IncomingMessage * list IncomingMessage :=
  match w with
  | res :: w => (Ok res, w)
  | [] => (Throw (Error "read ECONNRESET"), [])
  end.

End Fetch.

(** ** The entry points *)

Module Main.
Import Buffer Crx Fetch.

(** [s.split(sep)] for a separator of one character: the pieces between the
    separators, empty pieces included; the empty string gives one empty
    piece. Strings are read as UTF-8 here and as UTF-16 in JavaScript; the
    separator ["/"] and the character class below are ASCII, so the pieces and
    the characters kept are the same in both. *)
Fixpoint split (sep : Ascii.ascii) (s : string) : list string :=
  match s with
  | EmptyString => [EmptyString]
  | String c s =>
      if Ascii.eqb c sep then EmptyString :: split sep s
      else match split sep s with
           | part :: parts => String c part :: parts
           | [] => [String c EmptyString]
           end
  end.

(** The character ["/"]. *)
Definition slash : Ascii.ascii := Ascii.ascii_of_nat 47.

(** [.filter(Boolean)] on strings: the empty string is the falsy one. *)
Definition filter_Boolean (parts : list string) : list string :=
  filter (fun part => part <> EmptyString) parts.

(** The characters of the class [[a-zA-Z0-9_\-]]. *)
Definition word_char (c : Ascii.ascii) : bool :=
  let n := Ascii.N_of_ascii c in
  (((97 <=? n) && (n <=? 122)) || ((65 <=? n) && (n <=? 90))
   || ((48 <=? n) && (n <=? 57)) || (n =? 95) || (n =? 45))%N.

(** [name.replace(/[^a-zA-Z0-9_\-]/g, "")] *)
Fixpoint sanitize (name : string) : string :=
  match name with
  | EmptyString => EmptyString
  | String c name =>
      if word_char c then String c (sanitize name) else sanitize name
  end.

(** The [options] of [fetchExtensionZip]; a missing property is [None]. *)
Record zip_options := ZipOptions {
  opt_chromeVersion : option string;
  opt_outputDir : option string;
}.

(** The object [fetchExtensionZip] returns. *)
Record paths := Paths { crxPath : string; zipPath : string }.

(** The process state of a run: the files and the console of [Fs], the
    directories that have been made, and the lines of [console.error]. Making
    a directory is taken to succeed, like a write. *)
Record state := State {
  fs : Fs.state;
  dirs : gset string;
  stderr : list string;
}.

Definition existsSync (path : string) (st : state) : bool :=
  bool_decide (path ∈ dirs st)
  || bool_decide (is_Some (Fs.files (fs st) !! path)).

(** [fs.mkdirSync(path, { recursive: true })]; the parents it makes on the
    way are not listed. *)
Definition mkdirSync (path : string) (st : state) : state :=
  {| fs := fs st; dirs := {[ path ]} ∪ dirs st; stderr := stderr st |}.

Definition with_fs (st : state) (fs' : Fs.state) : state :=
  {| fs := fs'; dirs := dirs st; stderr := stderr st |}.

Definition console_error (line : string) (st : state) : state :=
  {| fs := fs st; dirs := dirs st; stderr := stderr st ++ [line] |}.

Definition newline : string := String (Ascii.ascii_of_nat 10) EmptyString.

(** The parts of the URL, the extension id and the name guessed from them,
    index.js lines 163-177. The id is [undefined] when there are no parts; it
    is only ever printed by a template literal, as ["undefined"]. *)
Definition url_parts (extensionUrl : string) : list string :=
  filter_Boolean (split slash extensionUrl).

Definition extension_id (extensionUrl : string) : string :=
  let parts := url_parts extensionUrl in
  default "undefined" (parts !! (length parts - 1)%nat).

Definition guessed_name (extensionUrl : string) : string :=
  let parts := url_parts extensionUrl in
  let guessedName := "extension" in
  let guessedName :=
    if (2 <=? length parts)%nat
    then default guessedName (parts !! (length parts - 2)%nat)
    else guessedName in
  sanitize guessedName.

(** The URL and the options that [downloadCRX] builds, index.js lines 59-68. *)
Definition download_url (extensionId chromeVersion : string) : string :=
  "https://clients2.google.com/service/update2/crx?response=redirect&prodversion="
  +:+ chromeVersion +:+ "&acceptformat=crx2,crx3&x=id%3D"
  +:+ extensionId +:+ "%26uc".

Definition user_agent (chromeVersion : string) : string :=
  "Mozilla/5.0 (Windows NT 10.0; Win64; x64) AppleWebKit/537.36 (KHTML, like Gecko) Chrome/"
  +:+ chromeVersion +:+ " Safari/537.36".

Definition download_options (chromeVersion : string) : Fetch.options :=
  {| req_headers :=
       {[ "User-Agent" := user_agent chromeVersion; "Accept" := "*/*" ]} |}.

(** How a caught exception shows in [err.message]: the message of a plain
    [Error], and what Node words for the others. *)
Definition message (node_message : exn -> string) (e : exn) : string :=
  match e with
  | Error message => message
  | e => node_message e
  end.

(** How the command line run ends: [process.exit(code)], or the end of the
    script. *)
Inductive ending := Exit (code : Z) | Done.

Section platform.

Context {world : Type}.
Variable get : world -> string -> Fetch.options -> result IncomingMessage * world.

(** [path.join(dir, file)] and the messages of Node's own errors belong to
    the platform. *)
Variable join : string -> string -> string.
Variable node_message : exn -> string.

(** [fetchExtensionZip(extensionUrl, options = {})], index.js lines
    151-196. *)
Definition fetchExtensionZip (fuel : nat) (extensionUrl : string)
    (options : option zip_options) (w : world) (st : state)
  : option (result paths * list event * world * state) :=
  let options := default (ZipOptions None None) options in
  let chromeVersion := default "114.0.5735.133" (opt_chromeVersion options) in
  let outputDir := default "extensions" (opt_outputDir options) in
  let st := if negb (existsSync outputDir st) then mkdirSync outputDir st
            else st in
  let extensionId := extension_id extensionUrl in
  let guessedName := guessed_name extensionUrl in
  let crxFilename := join outputDir (guessedName +:+ ".crx") in
  let zipFilename := join outputDir (guessedName +:+ ".zip") in
  let out :=
    Fs.console_log
      (newline +:+ "==> Downloading extension: " +:+ guessedName
       +:+ " (ID: " +:+ extensionId +:+ ")") (fs st) in
  let out := Fs.console_log ("==> Using Chrome version: " +:+ chromeVersion) out in
  match downloadCRX get fuel extensionId chromeVersion crxFilename w out with
  | None => None
  | Some (Throw e, trace, w, out) => Some (Throw e, trace, w, with_fs st out)
  | Some (Ok _, trace, w, out) =>
      match Fs.convertCRXtoZIP crxFilename zipFilename out with
      | (Throw e, out) => Some (Throw e, trace, w, with_fs st out)
      | (Ok _, out) =>
          Some (Ok {| crxPath := crxFilename; zipPath := zipFilename |},
                trace, w, with_fs st out)
      end
  end.

(** The script run from the command line with [process.argv], index.js
    lines 200-219. *)
Definition main (fuel : nat) (argv : list string) (w : world) (st : state)
  : option (ending * list event * world * state) :=
  let extensionUrl := argv !! 2%nat in
  let maybeChromeVersion := argv !! 3%nat in
  match extensionUrl with
  | None | Some EmptyString =>
      Some (Exit 1, [], w,
            console_error
              "Usage: node index.js <extension_url> [<chromeVersion>]" st)
  | Some extensionUrl =>
      let chromeVersion :=
        match maybeChromeVersion with
        | None | Some EmptyString => "114.0.5735.133"
        | Some version => version
        end in
      match fetchExtensionZip fuel extensionUrl
              (Some (ZipOptions (Some chromeVersion) None)) w st with
      | None => None
      | Some (Throw err, trace, w, st) =>
          Some (Exit 1, trace, w,
                console_error ("Error: " +:+ message node_message err) st)
      | Some (Ok _, trace, w, st) => Some (Done, trace, w, st)
      end
  end.

End platform.






(** A small version-3 container (a header of one byte, an archive of two),
    a disk that holds it, and a script that serves it after two redirects. *)
Definition sample_container : Buffer.t :=
  magic ++ LE32 3 ++ LE32 1 ++ [Byte.x00; Byte.x50; Byte.x4b].

Definition sample_disk : Fs.state :=
  Fs.State {[ "extensions/a.crx" := sample_container ]} [].

Definition sample_script : list IncomingMessage :=
  [found "https://b.example/crx"; found "https://c.example/crx";
   ok sample_container].




End Main.

Import Buffer Crx.

(** ** Bytes and 32-bit little-endian fields *)

Section bytes.

Lemma unsigned_range (b : byte) : 0 <= unsigned b < 256.
Proof.
  unfold unsigned. pose proof (Byte.to_N_bounded b). lia.
Qed.

Lemma unsigned_of_Z (z : Z) : unsigned (of_Z z) = z mod 256.
Proof.
  unfold unsigned, of_Z.
  pose proof (Z.mod_pos_bound z 256 eq_refl) as Hz.
  destruct (Byte.of_N (Z.to_N (z mod 256))) as [b|] eqn:E.
  - apply Byte.to_of_N in E. rewrite E. lia.
  - apply Byte.of_N_None_iff in E. lia.
Qed.

Lemma LE32_length (n : Z) : length (LE32 n) = 4%nat.
Proof. reflexivity. Qed.

(** A successful read lies inside the buffer and is an unsigned 32-bit
    number. *)
Lemma readUInt32LE_Ok (buffer : Buffer.t) (offset : nat) (v : Z) :
  readUInt32LE buffer offset = Ok v ->
  (offset + 4 <= length buffer)%nat /\ 0 <= v < 2 ^ 32.
Proof.
  unfold readUInt32LE.
  destruct (buffer !! offset) as [b0|] eqn:E0;
    destruct (buffer !! (offset + 1)%nat) as [b1|] eqn:E1;
    destruct (buffer !! (offset + 2)%nat) as [b2|] eqn:E2;
    destruct (buffer !! (offset + 3)%nat) as [b3|] eqn:E3;
    try (destruct (_ <? _); discriminate).
  intros [= <-]. split.
  - apply lookup_lt_Some in E3. lia.
  - pose proof (unsigned_range b0). pose proof (unsigned_range b1).
    pose proof (unsigned_range b2). pose proof (unsigned_range b3). lia.
Qed.

(** A read that does not fit in the buffer throws a [RangeError]. *)
Lemma readUInt32LE_out_of_bounds (buffer : Buffer.t) (offset : nat) :
  (length buffer < offset + 4)%nat ->
  exists code, readUInt32LE buffer offset = Throw (RangeError code).
Proof.
  intros Hlen. unfold readUInt32LE.
  rewrite (lookup_ge_None_2 buffer (offset + 3)) by lia.
  destruct (buffer !! offset), (buffer !! (offset + 1)%nat),
    (buffer !! (offset + 2)%nat), (_ <? _); eauto.
Qed.

(** A read that fits in the buffer returns. *)
Lemma readUInt32LE_in_bounds (buffer : Buffer.t) (offset : nat) :
  (offset + 4 <= length buffer)%nat ->
  exists v, readUInt32LE buffer offset = Ok v.
Proof.
  intros Hlen. unfold readUInt32LE.
  destruct (lookup_lt_is_Some_2 buffer offset) as [b0 ->]; [lia|].
  destruct (lookup_lt_is_Some_2 buffer (offset + 1)) as [b1 ->]; [lia|].
  destruct (lookup_lt_is_Some_2 buffer (offset + 2)) as [b2 ->]; [lia|].
  destruct (lookup_lt_is_Some_2 buffer (offset + 3)) as [b3 ->]; [lia|].
  eauto.
Qed.

Lemma LE32_value (n : Z) :
  0 <= n < 2 ^ 32 ->
  n mod 256 + (n / 2 ^ 8) mod 256 * 2 ^ 8 + (n / 2 ^ 16) mod 256 * 2 ^ 16
    + (n / 2 ^ 24) mod 256 * 2 ^ 24 = n.
Proof.
  intros Hn.
  change (2 ^ 8) with 256. change (2 ^ 16) with 65536.
  change (2 ^ 24) with 16777216. change (2 ^ 32) with 4294967296 in Hn.
  Z.div_mod_to_equations. lia.
Qed.

Lemma lookup_app_add_r (pre l : Buffer.t) (i : nat) :
  (pre ++ l) !! (length pre + i)%nat = l !! i.
Proof. rewrite lookup_app_r by lia. f_equal. lia. Qed.

(** Reading back a field written by [LE32]. *)
Lemma readUInt32LE_LE32 (pre post : Buffer.t) (n : Z) :
  0 <= n < 2 ^ 32 ->
  readUInt32LE (pre ++ LE32 n ++ post) (length pre) = Ok n.
Proof.
  intros Hn. unfold readUInt32LE.
  replace (length pre) with (length pre + 0)%nat at 1 by lia.
  rewrite !(lookup_app_add_r pre). cbn [LE32 app lookup list_lookup].
  rewrite !unsigned_of_Z. f_equal. by apply LE32_value.
Qed.

End bytes.

(** ** The magic check *)

Section magic.

(** What the check [buffer.toString("ascii", 0, 4) !== "Cr24"] looks at: the
    first four bytes, each with its highest bit unset. *)
Lemma magic_check_spec (buffer : Buffer.t) :
  toString_ascii buffer 0 4 = "Cr24" <->
  ascii_decode <$> take 4 buffer = ascii_decode <$> magic.
Proof.
  unfold toString_ascii. rewrite drop_0. cbn [Nat.sub].
  split.
  - intros H. apply (f_equal String.list_ascii_of_string) in H.
    by rewrite String.list_ascii_of_string_of_list_ascii in H.
  - by intros ->.
Qed.

(** A buffer that starts with the four bytes of the tag passes the check. *)
Lemma magic_accepted (buffer : Buffer.t) :
  take 4 buffer = magic ->
  String.eqb (toString_ascii buffer 0 4) "Cr24" = true.
Proof.
  intros H. apply String.eqb_eq, magic_check_spec. by rewrite H.
Qed.

(** A buffer of fewer than four bytes is rejected. *)
Lemma getZipStartOffset_short (buffer : Buffer.t) :
  (length buffer < 4)%nat ->
  getZipStartOffset buffer = Throw FormatError.
Proof.
  intros Hlen. unfold getZipStartOffset.
  destruct (String.eqb _ _) eqn:E; [|done].
  apply String.eqb_eq, magic_check_spec in E.
  apply (f_equal length) in E. rewrite !length_fmap, length_take in E.
  change (length magic) with 4%nat in E. lia.
Qed.

(** A buffer whose first four bytes, with their highest bits unset, are not
    the tag is rejected. *)
Lemma getZipStartOffset_bad_magic (buffer : Buffer.t) :
  ascii_decode <$> take 4 buffer <> ascii_decode <$> magic ->
  getZipStartOffset buffer = Throw FormatError.
Proof.
  intros Hne. unfold getZipStartOffset.
  destruct (String.eqb _ _) eqn:E; [|done].
  apply String.eqb_eq, magic_check_spec in E. done.
Qed.

(** Past the magic check the parser is its version dispatch. *)
Lemma getZipStartOffset_dispatch (buffer : Buffer.t) :
  toString_ascii buffer 0 4 = "Cr24" ->
  getZipStartOffset buffer =
    let* version := readUInt32LE buffer 4 in
    if version =? 2 then
      let* pubKeyLen := readUInt32LE buffer 8 in
      let* sigLen := readUInt32LE buffer 12 in
      Ok (16 + pubKeyLen + sigLen)
    else if version =? 3 then
      let* headerSize := readUInt32LE buffer 8 in
      Ok (12 + headerSize)
    else Throw (UnsupportedVersionError version).
Proof.
  intros H. unfold getZipStartOffset.
  apply String.eqb_eq in H. by rewrite H.
Qed.

(** The message of [UnsupportedVersionError] determines the version. *)
Lemma UnsupportedVersionError_inj (v w : Z) :
  UnsupportedVersionError v = UnsupportedVersionError w -> v = w.
Proof.
  unfold UnsupportedVersionError, unsupported_version.
  intros [= H]. apply (inj (String.app _)) in H. by apply (inj pretty) in H.
Qed.

Lemma FormatError_not_unsupported (v : Z) :
  FormatError <> UnsupportedVersionError v.
Proof. unfold FormatError, UnsupportedVersionError. intros [= H]. Qed.

End magic.

(** ** The header parser: offsets *)

Section parser.

Lemma slice_app_length (pre post : Buffer.t) :
  slice (pre ++ post) (Z.of_nat (length pre)) = post.
Proof.
  unfold slice. destruct (Z.ltb_spec (Z.of_nat (length pre)) 0); [lia|].
  rewrite Nat2Z.id. apply drop_app_length.
Qed.

(** An offset past the end slices to the empty buffer. *)
Lemma slice_past_end (buffer : Buffer.t) (start : Z) :
  Z.of_nat (length buffer) <= start -> slice buffer start = [].
Proof.
  intros H. unfold slice. destruct (Z.ltb_spec start 0); [lia|].
  apply drop_ge. lia.
Qed.

Lemma getZipStartOffset_v2 (pubLen sigLen : Z) (rest : Buffer.t) :
  0 <= pubLen < 2 ^ 32 -> 0 <= sigLen < 2 ^ 32 ->
  getZipStartOffset (magic ++ LE32 2 ++ LE32 pubLen ++ LE32 sigLen ++ rest)
  = Ok (16 + pubLen + sigLen).
Proof.
  intros Hp Hs.
  rewrite getZipStartOffset_dispatch by reflexivity.
  rewrite (readUInt32LE_LE32 magic (LE32 pubLen ++ LE32 sigLen ++ rest) 2
             ltac:(lia) : readUInt32LE
               (magic ++ LE32 2 ++ LE32 pubLen ++ LE32 sigLen ++ rest) 4 = _).
  cbn [bind Z.eqb Pos.eqb].
  rewrite (readUInt32LE_LE32 (magic ++ LE32 2) (LE32 sigLen ++ rest) pubLen
             Hp : readUInt32LE
               (magic ++ LE32 2 ++ LE32 pubLen ++ LE32 sigLen ++ rest) 8 = _).
  rewrite (readUInt32LE_LE32 (magic ++ LE32 2 ++ LE32 pubLen) rest sigLen
             Hs : readUInt32LE
               (magic ++ LE32 2 ++ LE32 pubLen ++ LE32 sigLen ++ rest) 12 = _).
  reflexivity.
Qed.

Lemma getZipStartOffset_v3 (headerSize : Z) (rest : Buffer.t) :
  0 <= headerSize < 2 ^ 32 ->
  getZipStartOffset (magic ++ LE32 3 ++ LE32 headerSize ++ rest)
  = Ok (12 + headerSize).
Proof.
  intros Hh.
  rewrite getZipStartOffset_dispatch by reflexivity.
  rewrite (readUInt32LE_LE32 magic (LE32 headerSize ++ rest) 3
             ltac:(lia) : readUInt32LE
               (magic ++ LE32 3 ++ LE32 headerSize ++ rest) 4 = _).
  cbn [bind Z.eqb Pos.eqb].
  rewrite (readUInt32LE_LE32 (magic ++ LE32 3) rest headerSize
             Hh : readUInt32LE
               (magic ++ LE32 3 ++ LE32 headerSize ++ rest) 8 = _).
  reflexivity.
Qed.

(** C2. A version-2 container built as
    ["Cr24" + LE32(2) + LE32(pubLen) + LE32(sigLen) + pubKeyBytes + sigBytes
    + payload], with [pubLen] and [sigLen] the lengths of the key and of the
    signature (32-bit values, as [LE32] writes them): [getZipStartOffset]
    returns exactly [16 + pubLen + sigLen], and the slice of the buffer from
    that offset is the payload, byte for byte. *)
Theorem getZipStartOffset_v2_roundtrip
    (pubLen sigLen : Z) (pubKeyBytes sigBytes payload : Buffer.t) :
  Z.of_nat (length pubKeyBytes) = pubLen ->
  Z.of_nat (length sigBytes) = sigLen ->
  pubLen < 2 ^ 32 -> sigLen < 2 ^ 32 ->
  let buffer := magic ++ LE32 2 ++ LE32 pubLen ++ LE32 sigLen
                  ++ pubKeyBytes ++ sigBytes ++ payload in
  getZipStartOffset buffer = Ok (16 + pubLen + sigLen) /\
  slice buffer (16 + pubLen + sigLen) = payload.
Proof.
  intros Hpub Hsig Hp Hs buffer. split.
  - apply getZipStartOffset_v2; lia.
  - subst buffer.
    replace (magic ++ LE32 2 ++ LE32 pubLen ++ LE32 sigLen
               ++ pubKeyBytes ++ sigBytes ++ payload)
      with ((magic ++ LE32 2 ++ LE32 pubLen ++ LE32 sigLen
               ++ pubKeyBytes ++ sigBytes) ++ payload)
      by (by rewrite <- !app_assoc).
    replace (16 + pubLen + sigLen)
      with (Z.of_nat (length (magic ++ LE32 2 ++ LE32 pubLen ++ LE32 sigLen
                                ++ pubKeyBytes ++ sigBytes))).
    + apply slice_app_length.
    + rewrite !length_app, !LE32_length. change (length magic) with 4%nat. lia.
Qed.

Lemma getZipStartOffset_v2_roundtrip_witness :
  getZipStartOffset
    (magic ++ LE32 2 ++ LE32 2 ++ LE32 1
       ++ [Byte.x0a; Byte.x0b] ++ [Byte.x0c] ++ [Byte.x50; Byte.x4b])
  = Ok 19 /\
  slice
    (magic ++ LE32 2 ++ LE32 2 ++ LE32 1
       ++ [Byte.x0a; Byte.x0b] ++ [Byte.x0c] ++ [Byte.x50; Byte.x4b]) 19
  = [Byte.x50; Byte.x4b].
Proof.
  apply (getZipStartOffset_v2_roundtrip 2 1
           [Byte.x0a; Byte.x0b] [Byte.x0c] [Byte.x50; Byte.x4b]);
    [reflexivity | reflexivity | lia | lia].
Defined.

(** C3. A version-3 container built as
    ["Cr24" + LE32(3) + LE32(headerSize) + headerBytes + payload], with
    [headerSize] the length of the header bytes (a 32-bit value):
    [getZipStartOffset] returns exactly [12 + headerSize], and the slice of
    the buffer from that offset is the payload, byte for byte. *)
Theorem getZipStartOffset_v3_roundtrip
    (headerSize : Z) (headerBytes payload : Buffer.t) :
  Z.of_nat (length headerBytes) = headerSize ->
  headerSize < 2 ^ 32 ->
  let buffer := magic ++ LE32 3 ++ LE32 headerSize ++ headerBytes ++ payload in
  getZipStartOffset buffer = Ok (12 + headerSize) /\
  slice buffer (12 + headerSize) = payload.
Proof.
  intros Hlen Hh buffer. split.
  - apply getZipStartOffset_v3; lia.
  - subst buffer.
    replace (magic ++ LE32 3 ++ LE32 headerSize ++ headerBytes ++ payload)
      with ((magic ++ LE32 3 ++ LE32 headerSize ++ headerBytes) ++ payload)
      by (by rewrite <- !app_assoc).
    replace (12 + headerSize)
      with (Z.of_nat (length (magic ++ LE32 3 ++ LE32 headerSize
                                ++ headerBytes))).
    + apply slice_app_length.
    + rewrite !length_app, !LE32_length. change (length magic) with 4%nat. lia.
Qed.

Lemma getZipStartOffset_v3_roundtrip_witness :
  getZipStartOffset
    (magic ++ LE32 3 ++ LE32 3
       ++ [Byte.x0a; Byte.x0b; Byte.x0c] ++ [Byte.x50; Byte.x4b])
  = Ok 15 /\
  slice
    (magic ++ LE32 3 ++ LE32 3
       ++ [Byte.x0a; Byte.x0b; Byte.x0c] ++ [Byte.x50; Byte.x4b]) 15
  = [Byte.x50; Byte.x4b].
Proof.
  apply (getZipStartOffset_v3_roundtrip 3
           [Byte.x0a; Byte.x0b; Byte.x0c] [Byte.x50; Byte.x4b]);
    [reflexivity | lia].
Defined.

(** C8. A buffer that starts with ["Cr24"] and whose version field (the
    little-endian u32 at offset 4) is neither 2 nor 3 makes
    [getZipStartOffset] throw [UnsupportedVersionError], whose message
    carries the version read. *)
Theorem getZipStartOffset_unsupported_version (buffer : Buffer.t) (version : Z) :
  take 4 buffer = magic ->
  readUInt32LE buffer 4 = Ok version ->
  version <> 2 -> version <> 3 ->
  getZipStartOffset buffer = Throw (UnsupportedVersionError version) /\
  UnsupportedVersionError version
  = Error ("Unsupported CRX version: " +:+ pretty version).
Proof.
  intros Hmagic Hversion H2 H3. split; [|reflexivity].
  rewrite getZipStartOffset_dispatch
    by by apply String.eqb_eq, magic_accepted.
  rewrite Hversion. cbn [bind].
  destruct (Z.eqb_spec version 2); [done|].
  destruct (Z.eqb_spec version 3); done.
Qed.

Lemma getZipStartOffset_unsupported_version_witness :
  getZipStartOffset (magic ++ LE32 4294967295)
  = Throw (UnsupportedVersionError 4294967295) /\
  UnsupportedVersionError 4294967295
  = Error "Unsupported CRX version: 4294967295".
Proof.
  apply (getZipStartOffset_unsupported_version (magic ++ LE32 4294967295));
    [reflexivity | reflexivity | lia | lia].
Defined.

(** The versions the specification lists. *)
Example unsupported_versions :
  getZipStartOffset (magic ++ LE32 0) = Throw (UnsupportedVersionError 0) /\
  getZipStartOffset (magic ++ LE32 1) = Throw (UnsupportedVersionError 1) /\
  getZipStartOffset (magic ++ LE32 4) = Throw (UnsupportedVersionError 4).
Proof. by vm_compute. Qed.

(** What a returned offset is: the parser got past the magic check, read
    version 2 or 3, and added the declared lengths to the size of the fixed
    header. *)
Lemma getZipStartOffset_Ok (buffer : Buffer.t) (offset : Z) :
  getZipStartOffset buffer = Ok offset ->
  toString_ascii buffer 0 4 = "Cr24" /\
  ((readUInt32LE buffer 4 = Ok 2 /\
    exists pubKeyLen sigLen,
      readUInt32LE buffer 8 = Ok pubKeyLen /\
      readUInt32LE buffer 12 = Ok sigLen /\
      offset = 16 + pubKeyLen + sigLen) \/
   (readUInt32LE buffer 4 = Ok 3 /\
    exists headerSize,
      readUInt32LE buffer 8 = Ok headerSize /\
      offset = 12 + headerSize)).
Proof.
  unfold getZipStartOffset.
  destruct (String.eqb _ _) eqn:Hmagic; [|done]. cbn [negb].
  apply String.eqb_eq in Hmagic. intros H. split; [done|].
  destruct (readUInt32LE buffer 4) as [version|] eqn:Hversion; [|done].
  cbn [bind] in H.
  destruct (Z.eqb_spec version 2) as [->|].
  { left. split; [done|].
    destruct (readUInt32LE buffer 8) as [pubKeyLen|]; [|done].
    destruct (readUInt32LE buffer 12) as [sigLen|]; [|done].
    injection H as <-. eauto. }
  destruct (Z.eqb_spec version 3) as [->|]; [|done].
  right. split; [done|].
  destruct (readUInt32LE buffer 8) as [headerSize|]; [|done].
  injection H as <-. eauto.
Qed.

(** C9. Every offset that [getZipStartOffset] returns is at least 12: at
    least 16 for a version-2 buffer and at least 12 for a version-3 buffer,
    since the length fields are unsigned; so it is never negative. *)
Theorem getZipStartOffset_lower_bound (buffer : Buffer.t) (offset : Z) :
  getZipStartOffset buffer = Ok offset ->
  12 <= offset /\
  (readUInt32LE buffer 4 = Ok 2 -> 16 <= offset) /\
  (readUInt32LE buffer 4 = Ok 3 -> 12 <= offset) /\
  0 <= offset.
Proof.
  intros H. apply getZipStartOffset_Ok in H as [_ H].
  destruct H as [[Hv (pubKeyLen & sigLen & Hp & Hs & ->)]
                |[Hv (headerSize & Hh & ->)]].
  - apply readUInt32LE_Ok in Hp as [_ Hp], Hs as [_ Hs].
    rewrite Hv. repeat split; try lia.
  - apply readUInt32LE_Ok in Hh as [_ Hh].
    rewrite Hv. repeat split; try lia. intros [=].
Qed.

Lemma getZipStartOffset_lower_bound_witness :
  12 <= 16 /\
  (readUInt32LE (magic ++ LE32 2 ++ LE32 0 ++ LE32 0) 4 = Ok 2 -> 16 <= 16) /\
  (readUInt32LE (magic ++ LE32 2 ++ LE32 0 ++ LE32 0) 4 = Ok 3 -> 12 <= 16) /\
  0 <= 16.
Proof.
  apply (getZipStartOffset_lower_bound (magic ++ LE32 2 ++ LE32 0 ++ LE32 0)).
  reflexivity.
Defined.

(** C10. A buffer that starts with ["Cr24"] but is too short for the fixed
    fields that are read (fewer than 8 bytes; fewer than 16 for version 2;
    fewer than 12 for version 3) makes [getZipStartOffset] throw the
    [RangeError] of an out-of-bounds read; and a fixed-field read that
    returns lies within the buffer. *)
Theorem getZipStartOffset_truncated_header (buffer : Buffer.t) :
  take 4 buffer = magic ->
  (length buffer < 8)%nat \/
  (readUInt32LE buffer 4 = Ok 2 /\ (length buffer < 16)%nat) \/
  (readUInt32LE buffer 4 = Ok 3 /\ (length buffer < 12)%nat) ->
  getZipStartOffset buffer = Throw (RangeError ERR_OUT_OF_RANGE) /\
  forall offset v,
    readUInt32LE buffer offset = Ok v -> (offset + 4 <= length buffer)%nat.
Proof.
  intros Hmagic Hshort.
  split; [|intros offset v Hv; by apply readUInt32LE_Ok in Hv as [? _]].
  assert (4 <= length buffer)%nat as Hlen.
  { apply (f_equal length) in Hmagic. rewrite length_take in Hmagic.
    change (length magic) with 4%nat in Hmagic. lia. }
  assert (forall offset, (length buffer < offset + 4)%nat ->
            readUInt32LE buffer offset = Throw (RangeError ERR_OUT_OF_RANGE))
    as Hread.
  { intros offset Hoff.
    destruct (readUInt32LE_out_of_bounds buffer offset Hoff) as [code Hcode].
    rewrite Hcode. revert Hcode. unfold readUInt32LE.
    destruct (Z.ltb_spec (Z.of_nat (length buffer) - 4) 0); [lia|].
    by repeat case_match. }
  rewrite getZipStartOffset_dispatch
    by by apply String.eqb_eq, magic_accepted.
  destruct Hshort as [H8|[[Hv H16]|[Hv H12]]].
  - by rewrite (Hread 4%nat) by lia.
  - rewrite Hv. cbn [bind Z.eqb Pos.eqb].
    destruct (decide (12 <= length buffer)%nat) as [H12|H12].
    + destruct (readUInt32LE_in_bounds buffer 8) as [pubKeyLen ->]; [lia|].
      cbn [bind]. by rewrite (Hread 12%nat) by lia.
    + by rewrite (Hread 8%nat) by lia.
  - rewrite Hv. cbn [bind Z.eqb Pos.eqb].
    by rewrite (Hread 8%nat) by lia.
Qed.

Lemma getZipStartOffset_truncated_header_witness :
  getZipStartOffset (magic ++ LE32 2 ++ LE32 5)
  = Throw (RangeError ERR_OUT_OF_RANGE) /\
  forall offset v,
    readUInt32LE (magic ++ LE32 2 ++ LE32 5) offset = Ok v ->
    (offset + 4 <= length (magic ++ LE32 2 ++ LE32 5))%nat.
Proof.
  apply (getZipStartOffset_truncated_header (magic ++ LE32 2 ++ LE32 5)).
  - reflexivity.
  - right. left. split; [reflexivity | simpl; lia].
Defined.

(** C1, as the specification has it, fails: the version-3 container
    ["Cr24" + LE32(3) + LE32(100)] is 12 bytes long and declares a header of
    100 bytes; [getZipStartOffset] returns 112, which is past the end of the
    buffer, and does not throw [FormatError]. *)
Lemma getZipStartOffset_offset_past_end :
  getZipStartOffset (magic ++ LE32 3 ++ LE32 100) = Ok 112 /\
  ~ (0 <= 112 <= Z.of_nat (length (magic ++ LE32 3 ++ LE32 100))) /\
  getZipStartOffset (magic ++ LE32 3 ++ LE32 100) <> Throw FormatError.
Proof.
  split; [reflexivity|]. split; [simpl; lia | discriminate].
Qed.

(** C1, amended. For a buffer that the parser accepts (the magic check
    passes, the version is 2 or 3, the fixed length fields are there), the
    declared lengths are not compared with the size of the buffer:
    [getZipStartOffset] returns [16 + pubKeyLen + sigLen] or
    [12 + headerSize] whatever the length of the buffer is, and the offset it
    returns satisfies [0 <= offset]. *)
Theorem getZipStartOffset_lengths_unchecked (buffer : Buffer.t) (version : Z) :
  toString_ascii buffer 0 4 = "Cr24" ->
  readUInt32LE buffer 4 = Ok version ->
  (version = 2 /\ (16 <= length buffer)%nat) \/
  (version = 3 /\ (12 <= length buffer)%nat) ->
  exists offset,
    getZipStartOffset buffer = Ok offset /\ 0 <= offset /\
    (version = 2 ->
     exists pubKeyLen sigLen,
       readUInt32LE buffer 8 = Ok pubKeyLen /\
       readUInt32LE buffer 12 = Ok sigLen /\
       offset = 16 + pubKeyLen + sigLen) /\
    (version = 3 ->
     exists headerSize,
       readUInt32LE buffer 8 = Ok headerSize /\
       offset = 12 + headerSize).
Proof.
  intros Hmagic Hversion Hcase.
  rewrite getZipStartOffset_dispatch by done. rewrite Hversion. cbn [bind].
  destruct Hcase as [[-> Hlen]|[-> Hlen]]; cbn [Z.eqb Pos.eqb].
  - destruct (readUInt32LE_in_bounds buffer 8) as [pubKeyLen Hp]; [lia|].
    destruct (readUInt32LE_in_bounds buffer 12) as [sigLen Hs]; [lia|].
    rewrite Hp, Hs. cbn [bind].
    pose proof (readUInt32LE_Ok _ _ _ Hp) as [_ ?].
    pose proof (readUInt32LE_Ok _ _ _ Hs) as [_ ?].
    eexists. split; [done|]. split; [lia|]. split; [eauto|done].
  - destruct (readUInt32LE_in_bounds buffer 8) as [headerSize Hh]; [lia|].
    rewrite Hh. cbn [bind].
    pose proof (readUInt32LE_Ok _ _ _ Hh) as [_ ?].
    eexists. split; [done|]. split; [lia|]. split; [done|eauto].
Qed.

Lemma getZipStartOffset_lengths_unchecked_witness :
  exists offset,
    getZipStartOffset (magic ++ LE32 3 ++ LE32 100) = Ok offset /\ 0 <= offset /\
    (3 = 2 ->
     exists pubKeyLen sigLen,
       readUInt32LE (magic ++ LE32 3 ++ LE32 100) 8 = Ok pubKeyLen /\
       readUInt32LE (magic ++ LE32 3 ++ LE32 100) 12 = Ok sigLen /\
       offset = 16 + pubKeyLen + sigLen) /\
    (3 = 3 ->
     exists headerSize,
       readUInt32LE (magic ++ LE32 3 ++ LE32 100) 8 = Ok headerSize /\
       offset = 12 + headerSize).
Proof.
  apply (getZipStartOffset_lengths_unchecked (magic ++ LE32 3 ++ LE32 100) 3).
  - reflexivity.
  - reflexivity.
  - right. split; [reflexivity | simpl; lia].
Defined.

(** C7 at the buffer [c3 f2 b2 b4 03 00 00 00 00 00 00 00]: its first four
    bytes are not the tag ["Cr24"] (they are the bytes of the tag with the
    highest bit set), the ["ascii"] decoding of the magic check unsets that
    bit, and [getZipStartOffset] returns 12 where the claim has it throw
    [FormatError]. *)
Theorem getZipStartOffset_magic_high_bits :
  take 4 ([Byte.xc3; Byte.xf2; Byte.xb2; Byte.xb4] ++ LE32 3 ++ LE32 0)
  <> magic /\
  getZipStartOffset ([Byte.xc3; Byte.xf2; Byte.xb2; Byte.xb4] ++ LE32 3 ++ LE32 0)
  = Ok 12.
Proof. split; [discriminate | reflexivity]. Qed.

End parser.

(** ** The conversion step *)

Section convert.
Import Fs.

(** C6. When the container file is there and its header does not parse,
    [convertCRXtoZIP] throws the parser's exception before it writes: the
    file system is as it was, so the container file is still in place and
    no archive file has been produced. *)
Theorem convertCRXtoZIP_parse_failure
    (crxPath zipPath : string) (st : state) (buffer : Buffer.t) (e : exn) :
  files st !! crxPath = Some buffer ->
  getZipStartOffset buffer = Throw e ->
  exists st',
    convertCRXtoZIP crxPath zipPath st = (Throw e, st') /\
    files st' = files st /\
    files st' !! crxPath = Some buffer /\
    files st' !! zipPath = files st !! zipPath /\
    console st' = console st.
Proof.
  intros Hfile Hparse. exists st.
  unfold convertCRXtoZIP, readFileSync. by rewrite Hfile, Hparse.
Qed.

Lemma convertCRXtoZIP_parse_failure_witness :
  exists st',
    convertCRXtoZIP "extensions/a.crx" "extensions/a.zip"
      (State {[ "extensions/a.crx" := magic ++ LE32 4 ]} [])
    = (Throw (UnsupportedVersionError 4), st') /\
    files st' = files (State {[ "extensions/a.crx" := magic ++ LE32 4 ]} []) /\
    files st' !! "extensions/a.crx" = Some (magic ++ LE32 4) /\
    files st' !! "extensions/a.zip"
    = files (State {[ "extensions/a.crx" := magic ++ LE32 4 ]} [])
        !! "extensions/a.zip" /\
    console st'
    = console (State {[ "extensions/a.crx" := magic ++ LE32 4 ]} []).
Proof.
  apply (convertCRXtoZIP_parse_failure "extensions/a.crx" "extensions/a.zip"
           (State {[ "extensions/a.crx" := magic ++ LE32 4 ]} [])
           (magic ++ LE32 4) (UnsupportedVersionError 4)).
  - reflexivity.
  - reflexivity.
Defined.

(** When the header parses, the archive file holds the bytes of the
    container from the offset on (none, when the offset is past the end). *)
Lemma convertCRXtoZIP_success
    (crxPath zipPath : string) (st : state) (buffer : Buffer.t) (offset : Z) :
  files st !! crxPath = Some buffer ->
  getZipStartOffset buffer = Ok offset ->
  exists st',
    convertCRXtoZIP crxPath zipPath st = (Ok tt, st') /\
    files st' !! zipPath = Some (slice buffer offset) /\
    (crxPath <> zipPath -> files st' !! crxPath = Some buffer).
Proof.
  intros Hfile Hparse. eexists.
  unfold convertCRXtoZIP, readFileSync. rewrite Hfile, Hparse.
  split; [done|]. cbn. split.
  - apply lookup_insert_eq.
  - intros Hne. by rewrite lookup_insert_ne.
Qed.

(** The end-to-end scenario of the specification: a version-3 container of
    1000 bytes with [headerSize = 37] gives an archive of 951 bytes. *)
Example convertCRXtoZIP_1000 :
  let container :=
    magic ++ LE32 3 ++ LE32 37 ++ replicate 37 Byte.x00
      ++ replicate 951 Byte.x50 in
  length container = 1000%nat /\
  (convertCRXtoZIP "a.crx" "a.zip" (State {[ "a.crx" := container ]} [])).1
  = Ok tt /\
  files (convertCRXtoZIP "a.crx" "a.zip" (State {[ "a.crx" := container ]} [])).2
    !! "a.zip" = Some (replicate 951 Byte.x50).
Proof. by vm_compute. Qed.

End convert.

(** ** The redirect-following fetcher *)

Section fetcher.
Import Fetch.

Context {world : Type}.
Variable get : world -> string -> options -> result IncomingMessage * world.

(** Default parameters are resolved on entry. *)
Lemma fetchWithRedirect_defaults (fuel : nat) (url : string)
    (options : option options) (maxRedirects : option Z) (w : world) :
  fetchWithRedirect get fuel url options maxRedirects w
  = fetchWithRedirect get fuel url (Some (default (Options ∅) options))
      (Some (default 5 maxRedirects)) w.
Proof. by destruct fuel. Qed.

Lemma requests_get (url : string) (opts : options) (trace : list event) :
  requests (EvGet url opts :: trace) = (url, opts) :: requests trace.
Proof. reflexivity. Qed.

Lemma requests_resume (res : IncomingMessage) (trace : list event) :
  requests (EvResume res :: trace) = requests trace.
Proof. reflexivity. Qed.

Lemma requests_app (trace1 trace2 : list event) :
  requests (trace1 ++ trace2) = requests trace1 ++ requests trace2.
Proof. apply omap_app. Qed.

(** One request of the fetcher, with its parameters given. *)
Lemma fetchWithRedirect_S (fuel : nat) (url : string) (opts : options)
    (n : Z) (w : world) :
  fetchWithRedirect get (S fuel) url (Some opts) (Some n) w
  = match get w url opts with
    | (Throw err, w) => Some (Throw err, [EvGet url opts], w)
    | (Ok res, w) =>
        match redirect_target res with
        | Some redirectUrl =>
            if n =? 0 then
              Some (Throw TooManyRedirectsError,
                    [EvGet url opts; EvResume res], w)
            else
              match fetchWithRedirect get fuel redirectUrl (Some opts)
                      (Some (n - 1)) w with
              | Some (r, trace, w) =>
                  Some (r, EvGet url opts :: EvResume res :: trace, w)
              | None => None
              end
        | None => Some (Ok (as_is res), [EvGet url opts], w)
        end
    end.
Proof. reflexivity. Qed.

(** With a hop budget [n >= 0] the promise settles within [n + 1]
    requests, whatever the network answers. *)
Lemma fetchWithRedirect_settles (fuel : nat) (url : string) (opts : options)
    (n : Z) (w : world) :
  0 <= n -> (Z.to_nat n < fuel)%nat ->
  is_Some (fetchWithRedirect get fuel url (Some opts) (Some n) w).
Proof.
  revert url n w. induction fuel as [|fuel IH]; intros url n w Hn Hfuel; [lia|].
  rewrite fetchWithRedirect_S.
  destruct (get w url opts) as [[res|err] w1]; [|done].
  destruct (redirect_target res) as [redirectUrl|]; [|done].
  destruct (Z.eqb_spec n 0) as [->|Hne]; [done|].
  destruct (IH redirectUrl (n - 1) w1) as [[[r trace] w2] ->]; [lia..|done].
Qed.

(** Every request of a fetch is sent with the options of the first one. *)
Lemma fetchWithRedirect_same_options (fuel : nat) (url : string)
    (opts : options) (n : Z) (w : world) r trace w' :
  fetchWithRedirect get fuel url (Some opts) (Some n) w = Some (r, trace, w') ->
  Forall (fun request => request.2 = opts) (requests trace).
Proof.
  revert url n w r trace w'.
  induction fuel as [|fuel IH]; intros url n w r trace w'; [done|].
  rewrite fetchWithRedirect_S.
  destruct (get w url opts) as [[res|err] w1].
  2: { intros [= <- <- <-]. by repeat constructor. }
  destruct (redirect_target res) as [redirectUrl|].
  2: { intros [= <- <- <-]. by repeat constructor. }
  destruct (n =? 0).
  { intros [= <- <- <-]. by repeat constructor. }
  destruct (fetchWithRedirect get fuel redirectUrl (Some opts) (Some (n - 1)) w1)
    as [[[r1 trace1] w2]|] eqn:Hrec; [|done].
  intros [= <- <- <-]. apply IH in Hrec.
  rewrite requests_get, requests_resume. by constructor.
Qed.

Lemma fetchWithRedirect_loop (fuel : nat) (url : string) (opts : options)
    (n : Z) (w : world) :
  always_redirects get ->
  0 <= n -> (Z.to_nat n < fuel)%nat ->
  exists trace w',
    fetchWithRedirect get fuel url (Some opts) (Some n) w
    = Some (Throw TooManyRedirectsError, trace, w') /\
    length (requests trace) = S (Z.to_nat n) /\
    length trace = (2 * S (Z.to_nat n))%nat.
Proof.
  intros Hloop. revert url n w.
  induction fuel as [|fuel IH]; intros url n w Hn Hfuel; [lia|].
  rewrite fetchWithRedirect_S.
  destruct (Hloop w url opts) as (res & w1 & location & -> & ->).
  destruct (Z.eqb_spec n 0) as [->|Hne]; [by eauto|].
  destruct (IH location (n - 1) w1) as (trace & w2 & -> & Hreq & Hlen);
    [lia..|].
  eexists _, _. split; [done|].
  rewrite requests_get, requests_resume. cbn [length].
  rewrite Hreq, Hlen. lia.
Qed.

(** C4. With a hop budget [n >= 0] (5 when [maxRedirects] is not given) the
    fetch settles within [n + 1] requests on every network; and on a network
    where every response is a 3xx with a location header it fails with
    [TooManyRedirectsError] after exactly [n + 1] requests, each of whose
    responses was drained: [n] follows, so 5 follows and 6 requests for the
    default budget. *)
Theorem fetchWithRedirect_redirect_loop (fuel : nat) (url : string)
    (options : option options) (maxRedirects : option Z) (w : world) :
  0 <= default 5 maxRedirects ->
  (Z.to_nat (default 5%Z maxRedirects) < fuel)%nat ->
  is_Some (fetchWithRedirect get fuel url options maxRedirects w) /\
  (always_redirects get ->
   exists trace w',
     fetchWithRedirect get fuel url options maxRedirects w
     = Some (Throw TooManyRedirectsError, trace, w') /\
     length (requests trace) = S (Z.to_nat (default 5 maxRedirects)) /\
     length trace = (2 * S (Z.to_nat (default 5%Z maxRedirects)))%nat).
Proof.
  intros Hn Hfuel. rewrite fetchWithRedirect_defaults. split.
  - by apply fetchWithRedirect_settles.
  - intros Hloop. by apply fetchWithRedirect_loop.
Qed.

(** A negative hop budget never reaches [maxRedirects === 0]: on a network
    that always redirects the promise does not settle. *)
Lemma fetchWithRedirect_negative_budget (fuel : nat) (url : string)
    (opts : options) (n : Z) (w : world) :
  always_redirects get -> n < 0 ->
  fetchWithRedirect get fuel url (Some opts) (Some n) w = None.
Proof.
  intros Hloop. revert url n w.
  induction fuel as [|fuel IH]; intros url n w Hn; [done|].
  rewrite fetchWithRedirect_S.
  destruct (Hloop w url opts) as (res & w1 & location & -> & ->).
  destruct (Z.eqb_spec n 0) as [->|Hne]; [lia|].
  by rewrite IH by lia.
Qed.

(** [downloadCRX] calls the fetcher without [maxRedirects]: on a network
    that always redirects it fails after 6 requests and writes no file. *)
Lemma downloadCRX_redirect_loop (fuel : nat)
    (extensionId chromeVersion outputFilename : string)
    (w : world) (st : Fs.state) :
  always_redirects get -> (5 < fuel)%nat ->
  exists trace w' st',
    downloadCRX get fuel extensionId chromeVersion outputFilename w st
    = Some (Throw TooManyRedirectsError, trace, w', st') /\
    length (requests trace) = 6%nat /\
    Fs.files st' = Fs.files st.
Proof.
  intros Hloop Hfuel. unfold downloadCRX.
  rewrite fetchWithRedirect_defaults.
  match goal with
  | |- context [fetchWithRedirect get fuel ?u (Some ?o) (Some ?n) w] =>
      destruct (fetchWithRedirect_loop fuel u o n w Hloop)
        as (trace & w' & -> & Hreq & _); [simpl; lia..|]
  end.
  by eexists _, _, _.
Qed.

(** Following [k] hops that all redirect. *)
Lemma fetchWithRedirect_chain (k fuel : nat) (url : string) (opts : options)
    (n : Z) (w : world) hops w1 url1 final w2 :
  redirects get k url opts w = Some (hops, w1, url1) ->
  get w1 url1 opts = (Ok final, w2) ->
  redirect_target final = None ->
  Z.of_nat k <= n \/ n < 0 ->
  (k < fuel)%nat ->
  fetchWithRedirect get fuel url (Some opts) (Some n) w
  = Some (Ok (as_is final), hop_events opts hops ++ [EvGet url1 opts], w2).
Proof.
  revert fuel url n w hops.
  induction k as [|k IH]; intros fuel url n w hops Hhops Hget Hfinal Hn Hfuel;
    (destruct fuel as [|fuel]; [lia|]); rewrite fetchWithRedirect_S.
  - injection Hhops as <- <- <-. by rewrite Hget, Hfinal.
  - cbn [redirects] in Hhops.
    destruct (get w url opts) as [[res|err] w0]; [|done].
    destruct (redirect_target res) as [location|]; [|done].
    destruct (redirects get k location opts w0) as [[[hops' w1'] url1']|]
      eqn:Hrec; [|done].
    injection Hhops as <- <- <-.
    destruct (Z.eqb_spec n 0) as [->|Hne]; [lia|].
    by rewrite (IH fuel location (n - 1) w0 hops') by (done || lia).
Qed.

Lemma redirects_length (k : nat) (url : string) (opts : options) (w : world)
    hops w1 url1 :
  redirects get k url opts w = Some (hops, w1, url1) -> length hops = k.
Proof.
  revert url w hops. induction k as [|k IH]; intros url w hops; cbn.
  - by intros [= <- <- <-].
  - destruct (get w url opts) as [[res|err] w0]; [|done].
    destruct (redirect_target res) as [location|]; [|done].
    destruct (redirects get k location opts w0) as [[[hops' w1'] url1']|]
      eqn:Hrec; [|done].
    intros [= <- <- <-]. cbn. by rewrite (IH _ _ _ Hrec).
Qed.

Lemma requests_hop_events (opts : options)
    (hops : list (string * IncomingMessage)) :
  requests (hop_events opts hops) = (fun hop => (hop.1, opts)) <$> hops.
Proof.
  induction hops as [|hop hops IH]; [done|].
  change (hop_events opts (hop :: hops))
    with (EvGet hop.1 opts :: EvResume hop.2 :: hop_events opts hops).
  by rewrite requests_get, requests_resume, IH.
Qed.

(** C5. When the first [k] responses of a chain redirect and the next one,
    [final], does not, and the hop budget allows [k] follows, the fetch
    resolves with the status, the headers and the stream of [final]
    untouched; it has sent [k + 1] requests, one per hop, each with the
    options of the original request. And in every fetch that settles,
    however it ends, each request carries those options. *)
Theorem fetchWithRedirect_follows_chain (k fuel : nat) (url : string)
    (options : option options) (maxRedirects : option Z) (w : world)
    hops w1 url1 final w2 :
  redirects get k url (default (Options ∅) options) w = Some (hops, w1, url1) ->
  get w1 url1 (default (Options ∅) options) = (Ok final, w2) ->
  redirect_target final = None ->
  Z.of_nat k <= default 5 maxRedirects \/ default 5 maxRedirects < 0 ->
  (k < fuel)%nat ->
  (exists trace,
     fetchWithRedirect get fuel url options maxRedirects w
     = Some (Ok {| statusCode := res_statusCode final;
                   headers := res_headers final;
                   bodyStream := final |}, trace, w2) /\
     requests trace
     = ((fun hop => (hop.1, default (Options ∅) options)) <$> hops)
         ++ [(url1, default (Options ∅) options)] /\
     length (requests trace) = S k) /\
  (forall fuel' url' w' r trace w'',
     fetchWithRedirect get fuel' url' options maxRedirects w'
     = Some (r, trace, w'') ->
     Forall (fun request => request.2 = default (Options ∅) options)
       (requests trace)).
Proof.
  intros Hhops Hget Hfinal Hn Hfuel. split.
  - rewrite fetchWithRedirect_defaults.
    rewrite (fetchWithRedirect_chain k fuel url _ _ w hops w1 url1 final w2)
      by done.
    eexists. split; [done|].
    rewrite requests_app, requests_hop_events, requests_get.
    split; [done|].
    rewrite length_app, length_fmap, (redirects_length _ _ _ _ _ _ _ Hhops).
    cbn. lia.
  - intros fuel' url' w' r trace w''.
    rewrite fetchWithRedirect_defaults. apply fetchWithRedirect_same_options.
Qed.

End fetcher.

(** ** The fetcher on the two mock endpoints *)

Section mocks.
Import Fetch.

Lemma loop_get_always_redirects : always_redirects loop_get.
Proof.
  intros w url opts.
  by exists (found "https://clients2.google.com/loop"), w,
    "https://clients2.google.com/loop".
Qed.

Lemma fetchWithRedirect_redirect_loop_witness :
  exists trace w',
    fetchWithRedirect loop_get 6 "https://clients2.google.com/service/update2/crx"
      (Some (Options {[ "Accept" := "*/*" ]})) None tt
    = Some (Throw TooManyRedirectsError, trace, w') /\
    length (requests trace) = 6%nat /\
    length trace = 12%nat.
Proof.
  refine (proj2 (fetchWithRedirect_redirect_loop loop_get 6
                   "https://clients2.google.com/service/update2/crx"
                   (Some (Options {[ "Accept" := "*/*" ]})) None tt _ _) _).
  - simpl. lia.
  - simpl. lia.
  - intros w url opts.
    exists (found "https://clients2.google.com/loop"), w,
      "https://clients2.google.com/loop".
    split; reflexivity.
Defined.

(** The 302, 302, 200 scenario of the specification. *)
Lemma fetchWithRedirect_follows_chain_witness :
  (exists trace,
     fetchWithRedirect scripted_get 3 "https://a.example/crx"
       (Some (Options {[ "Accept" := "*/*" ]})) None
       [found "https://b.example/crx"; found "https://c.example/crx";
        ok [Byte.x43; Byte.x72]]
     = Some (Ok {| statusCode := res_statusCode (ok [Byte.x43; Byte.x72]);
                   headers := res_headers (ok [Byte.x43; Byte.x72]);
                   bodyStream := ok [Byte.x43; Byte.x72] |}, trace, []) /\
     requests trace
     = ((fun hop => (hop.1, default (Options ∅)
                              (Some (Options {[ "Accept" := "*/*" ]}))))
          <$> [("https://a.example/crx", found "https://b.example/crx");
               ("https://b.example/crx", found "https://c.example/crx")])
         ++ [("https://c.example/crx",
              default (Options ∅) (Some (Options {[ "Accept" := "*/*" ]})))] /\
     length (requests trace) = 3%nat) /\
  (forall fuel' url' w' r trace w'',
     fetchWithRedirect scripted_get fuel' url'
       (Some (Options {[ "Accept" := "*/*" ]})) None w'
     = Some (r, trace, w'') ->
     Forall (fun request =>
               request.2 = default (Options ∅)
                             (Some (Options {[ "Accept" := "*/*" ]})))
       (requests trace)).
Proof.
  apply (fetchWithRedirect_follows_chain scripted_get 2 3
           "https://a.example/crx"
           (Some (Options {[ "Accept" := "*/*" ]})) None
           [found "https://b.example/crx"; found "https://c.example/crx";
            ok [Byte.x43; Byte.x72]]
           [("https://a.example/crx", found "https://b.example/crx");
            ("https://b.example/crx", found "https://c.example/crx")]
           [ok [Byte.x43; Byte.x72]] "https://c.example/crx"
           (ok [Byte.x43; Byte.x72]) []).
  - reflexivity.
  - reflexivity.
  - reflexivity.
  - left. simpl. lia.
  - lia.
Defined.

(** The same scenario, run: the requests of the three hops. *)
Example fetch_302_302_200 :
  fetchWithRedirect scripted_get 3 "https://a.example/crx"
    (Some (Options {[ "Accept" := "*/*" ]})) None
    [found "https://b.example/crx"; found "https://c.example/crx";
     ok [Byte.x43; Byte.x72]]
  = Some (Ok (as_is (ok [Byte.x43; Byte.x72])),
          [EvGet "https://a.example/crx" (Options {[ "Accept" := "*/*" ]});
           EvResume (found "https://b.example/crx");
           EvGet "https://b.example/crx" (Options {[ "Accept" := "*/*" ]});
           EvResume (found "https://c.example/crx");
           EvGet "https://c.example/crx" (Options {[ "Accept" := "*/*" ]})],
          []).
Proof. reflexivity. Qed.

(** A 3xx response without a location header, or with an empty one, is
    returned as it is. *)
Example fetch_3xx_without_location :
  redirect_target (Response 304 ∅ []) = None /\
  redirect_target (found "") = None /\
  redirect_target (found "https://b.example/crx") = Some "https://b.example/crx" /\
  redirect_target (Response 400 {[ "location" := "https://b.example/" ]} []) = None.
Proof. by vm_compute. Qed.

End mocks.

(** ** More on the header parser *)

Section parser_more.

Lemma readUInt32LE_take (buffer : Buffer.t) (offset n : nat) :
  (offset + 4 <= n)%nat -> (4 <= n)%nat ->
  readUInt32LE (take n buffer) offset = readUInt32LE buffer offset.
Proof.
  intros Hoff Hn. unfold readUInt32LE.
  rewrite !lookup_take_lt by lia.
  replace (Z.of_nat (length (take n buffer)) - 4 <? 0)
    with (Z.of_nat (length buffer) - 4 <? 0); [done|].
  rewrite length_take.
  destruct (Z.ltb_spec (Z.of_nat (length buffer) - 4) 0),
    (Z.ltb_spec (Z.of_nat (n `min` length buffer) - 4) 0); (done || lia).
Qed.

Lemma getZipStartOffset_take (buffer : Buffer.t) :
  getZipStartOffset (take 16 buffer) = getZipStartOffset buffer.
Proof.
  unfold getZipStartOffset, toString_ascii.
  rewrite !drop_0, take_take, !readUInt32LE_take by lia. done.
Qed.

(** X1. The parser reads the first 16 bytes and nothing else: two buffers that
    agree there get the same offset or the same exception. *)
Theorem getZipStartOffset_header_only (buffer1 buffer2 : Buffer.t) :
  take 16 buffer1 = take 16 buffer2 ->
  getZipStartOffset buffer1 = getZipStartOffset buffer2.
Proof.
  intros H.
  by rewrite <- (getZipStartOffset_take buffer1), H, getZipStartOffset_take.
Qed.

Lemma getZipStartOffset_header_only_witness :
  getZipStartOffset
    (magic ++ LE32 2 ++ LE32 1 ++ LE32 1 ++ [Byte.x0a; Byte.x0b; Byte.x50])
  = getZipStartOffset
      (magic ++ LE32 2 ++ LE32 1 ++ LE32 1 ++ [Byte.xff]).
Proof.
  apply (getZipStartOffset_header_only
           (magic ++ LE32 2 ++ LE32 1 ++ LE32 1 ++ [Byte.x0a; Byte.x0b; Byte.x50])
           (magic ++ LE32 2 ++ LE32 1 ++ LE32 1 ++ [Byte.xff])).
  reflexivity.
Defined.

Lemma magic_check_length (buffer : Buffer.t) :
  toString_ascii buffer 0 4 = "Cr24" -> (4 <= length buffer)%nat.
Proof.
  intros H. apply magic_check_spec in H.
  apply (f_equal length) in H. rewrite !length_fmap, length_take in H.
  change (length magic) with 4%nat in H. lia.
Qed.

Lemma readUInt32LE_Throw (buffer : Buffer.t) (offset : nat) (e : exn) :
  readUInt32LE buffer offset = Throw e ->
  (length buffer < offset + 4)%nat /\
  ((4 <= length buffer)%nat -> e = RangeError ERR_OUT_OF_RANGE).
Proof.
  intros H. split.
  - destruct (decide (length buffer < offset + 4)%nat) as [|Hge]; [done|].
    destruct (readUInt32LE_in_bounds buffer offset) as [v Hv]; [lia|].
    congruence.
  - intros Hlen. revert H. unfold readUInt32LE.
    destruct (Z.ltb_spec (Z.of_nat (length buffer) - 4) 0); [lia|].
    repeat case_match; congruence.
Qed.

Lemma getZipStartOffset_Throw (buffer : Buffer.t) (e : exn) :
  getZipStartOffset buffer = Throw e ->
  (e = FormatError /\ toString_ascii buffer 0 4 <> "Cr24") \/
  (exists version,
     e = UnsupportedVersionError version /\
     readUInt32LE buffer 4 = Ok version /\ version <> 2 /\ version <> 3) \/
  (e = RangeError ERR_OUT_OF_RANGE /\ (4 <= length buffer < 16)%nat).
Proof.
  unfold getZipStartOffset.
  destruct (String.eqb _ _) eqn:Hmagic; cbn [negb].
  2: { intros [= <-]. left. split; [done|].
       intros H. apply String.eqb_eq in H. congruence. }
  apply String.eqb_eq, magic_check_length in Hmagic.
  destruct (readUInt32LE buffer 4) as [version|e4] eqn:H4; cbn [bind].
  2: { intros [= <-]. apply readUInt32LE_Throw in H4 as [? ->]; [|done].
       right. right. split; [done|lia]. }
  destruct (Z.eqb_spec version 2) as [->|H2].
  { destruct (readUInt32LE buffer 8) as [pubKeyLen|e8] eqn:H8; cbn [bind].
    2: { intros [= <-]. apply readUInt32LE_Throw in H8 as [? ->]; [|done].
         right. right. split; [done|lia]. }
    destruct (readUInt32LE buffer 12) as [sigLen|e12] eqn:H12; cbn [bind];
      [done|].
    intros [= <-]. apply readUInt32LE_Throw in H12 as [? ->]; [|done].
    right. right. split; [done|lia]. }
  destruct (Z.eqb_spec version 3) as [->|H3].
  { destruct (readUInt32LE buffer 8) as [headerSize|e8] eqn:H8; cbn [bind];
      [done|].
    intros [= <-]. apply readUInt32LE_Throw in H8 as [? ->]; [|done].
    right. right. split; [done|lia]. }
  intros [= <-]. right. left. by exists version.
Qed.

(** X2. The exceptions of the parser. [getZipStartOffset] throws nothing but:
    the "Not a valid CRX file" error; the "Unsupported CRX version" error,
    with the version it read, which is neither 2 nor 3; the [ERR_OUT_OF_RANGE]
    error of a read past the end, on a buffer of fewer than 16 bytes. *)
Theorem getZipStartOffset_throws (buffer : Buffer.t) (e : exn) :
  getZipStartOffset buffer = Throw e ->
  (e = FormatError /\ toString_ascii buffer 0 4 <> "Cr24") \/
  (exists version,
     e = UnsupportedVersionError version /\
     readUInt32LE buffer 4 = Ok version /\ version <> 2 /\ version <> 3) \/
  (e = RangeError ERR_OUT_OF_RANGE /\ (4 <= length buffer < 16)%nat).
Proof. apply getZipStartOffset_Throw. Qed.

Lemma getZipStartOffset_throws_witness :
  (RangeError ERR_OUT_OF_RANGE = FormatError /\
   toString_ascii (magic ++ LE32 3) 0 4 <> "Cr24") \/
  (exists version,
     RangeError ERR_OUT_OF_RANGE = UnsupportedVersionError version /\
     readUInt32LE (magic ++ LE32 3) 4 = Ok version /\
     version <> 2 /\ version <> 3) \/
  (RangeError ERR_OUT_OF_RANGE = RangeError ERR_OUT_OF_RANGE /\
   (4 <= length (magic ++ LE32 3) < 16)%nat).
Proof.
  apply (getZipStartOffset_throws (magic ++ LE32 3) (RangeError ERR_OUT_OF_RANGE)).
  reflexivity.
Defined.

(** X3. The "Not a valid CRX file" error is thrown exactly for the buffers whose
    first four bytes, each with its highest bit unset, are not the four bytes
    of ["Cr24"]; this includes every buffer of fewer than four bytes. *)
Theorem getZipStartOffset_FormatError_iff (buffer : Buffer.t) :
  (getZipStartOffset buffer = Throw FormatError <->
   ascii_decode <$> take 4 buffer <> ascii_decode <$> magic) /\
  ((length buffer < 4)%nat -> getZipStartOffset buffer = Throw FormatError).
Proof.
  split; [|apply getZipStartOffset_short]. split.
  - intros H Heq. apply getZipStartOffset_Throw in H as [[_ H]|[H|[H _]]].
    + by apply H, magic_check_spec.
    + destruct H as (version & H & _). by apply FormatError_not_unsupported in H.
    + discriminate H.
  - apply getZipStartOffset_bad_magic.
Qed.

Lemma getZipStartOffset_FormatError_iff_witness :
  getZipStartOffset [Byte.x43; Byte.x72; Byte.x32] = Throw FormatError.
Proof.
  apply (proj2 (getZipStartOffset_FormatError_iff [Byte.x43; Byte.x72; Byte.x32])).
  simpl. lia.
Defined.

(** X4. A returned offset is at most [16 + 2 * (2^32 - 1)], far below [2^53]: the
    additions of the parser are exact. *)
Theorem getZipStartOffset_upper_bound (buffer : Buffer.t) (offset : Z) :
  getZipStartOffset buffer = Ok offset ->
  offset <= 16 + 2 * (2 ^ 32 - 1) /\
  (readUInt32LE buffer 4 = Ok 3 -> offset <= 12 + (2 ^ 32 - 1)) /\
  offset < 2 ^ 53.
Proof.
  intros H. apply getZipStartOffset_Ok in H as [_ H].
  destruct H as [[Hv (pubKeyLen & sigLen & Hp & Hs & ->)]
                |[Hv (headerSize & Hh & ->)]].
  - apply readUInt32LE_Ok in Hp as [_ Hp], Hs as [_ Hs].
    rewrite Hv. repeat split; try lia. intros [=].
  - apply readUInt32LE_Ok in Hh as [_ Hh]. repeat split; lia.
Qed.

Lemma getZipStartOffset_upper_bound_witness :
  8589934606 <= 16 + 2 * (2 ^ 32 - 1) /\
  (readUInt32LE
     (magic ++ LE32 2 ++ LE32 4294967295 ++ LE32 4294967295) 4 = Ok 3 ->
   8589934606 <= 12 + (2 ^ 32 - 1)) /\
  8589934606 < 2 ^ 53.
Proof.
  apply (getZipStartOffset_upper_bound
           (magic ++ LE32 2 ++ LE32 4294967295 ++ LE32 4294967295)).
  reflexivity.
Defined.

End parser_more.

(** ** More on the conversion step *)

Section convert_more.
Import Fs.

Lemma convertCRXtoZIP_Ok (crxPath zipPath : string) (st st' : state) :
  convertCRXtoZIP crxPath zipPath st = (Ok tt, st') ->
  exists buffer offset,
    files st !! crxPath = Some buffer /\
    getZipStartOffset buffer = Ok offset /\
    st' = console_log ("ZIP extracted and saved to: " +:+ zipPath)
            (writeFileSync zipPath (slice buffer offset) st).
Proof.
  unfold convertCRXtoZIP, readFileSync.
  destruct (files st !! crxPath) as [buffer|]; [|done].
  destruct (getZipStartOffset buffer) as [offset|] eqn:Hoff; [|done].
  intros [= <-]. by exists buffer, offset.
Qed.

Lemma convertCRXtoZIP_Throw (crxPath zipPath : string) (st st' : state) e :
  convertCRXtoZIP crxPath zipPath st = (Throw e, st') -> st' = st.
Proof.
  unfold convertCRXtoZIP, readFileSync.
  destruct (files st !! crxPath) as [buffer|]; [|by intros [= _ <-]].
  destruct (getZipStartOffset buffer) as [offset|]; [done|by intros [= _ <-]].
Qed.

(** X5. What a conversion may change: the file at [zipPath] and one line of the
    console when it succeeds, nothing at all when it throws (a missing
    container included). *)
Theorem convertCRXtoZIP_frame (crxPath zipPath : string) (st st' : state) r :
  convertCRXtoZIP crxPath zipPath st = (r, st') ->
  (forall path, path <> zipPath -> files st' !! path = files st !! path) /\
  (forall e, r = Throw e -> st' = st) /\
  (r = Ok tt ->
   console st' = console st ++ ["ZIP extracted and saved to: " +:+ zipPath]) /\
  (files st !! crxPath = None -> r = Throw (SystemError "ENOENT" crxPath)).
Proof.
  intros H. destruct r as [[]|e].
  - destruct (convertCRXtoZIP_Ok _ _ _ _ H) as (buffer & offset & Hf & _ & ->).
    repeat split; try done.
    + intros path Hne. cbn. by rewrite lookup_insert_ne.
    + intros Hnone. congruence.
  - pose proof (convertCRXtoZIP_Throw _ _ _ _ _ H) as ->.
    repeat split; try done.
    intros Hnone. revert H. unfold convertCRXtoZIP, readFileSync.
    rewrite Hnone. by intros [= <-].
Qed.

Lemma convertCRXtoZIP_frame_witness :
  (forall path, path <> "a.zip" ->
     files (State ∅ []) !! path = files (State ∅ []) !! path) /\
  (forall e, (Throw (SystemError "ENOENT" "a.crx") : result unit) = Throw e ->
     State ∅ [] = State ∅ []) /\
  ((Throw (SystemError "ENOENT" "a.crx") : result unit) = Ok tt ->
   console (State ∅ [])
   = console (State ∅ []) ++ ["ZIP extracted and saved to: " +:+ "a.zip"]) /\
  (files (State ∅ []) !! "a.crx" = None ->
   Throw (SystemError "ENOENT" "a.crx")
   = (Throw (SystemError "ENOENT" "a.crx") : result unit)).
Proof.
  apply (convertCRXtoZIP_frame "a.crx" "a.zip" (State ∅ []) (State ∅ [])
           (Throw (SystemError "ENOENT" "a.crx"))).
  reflexivity.
Defined.

(** X6. The archive a conversion writes is the container without its first
    [offset] bytes: a suffix of the container, at least 12 bytes shorter. *)
Theorem convertCRXtoZIP_archive_suffix
    (crxPath zipPath : string) (st st' : state) (buffer : Buffer.t) :
  files st !! crxPath = Some buffer ->
  convertCRXtoZIP crxPath zipPath st = (Ok tt, st') ->
  exists offset archive,
    getZipStartOffset buffer = Ok offset /\
    files st' !! zipPath = Some archive /\
    take (Z.to_nat offset) buffer ++ archive = buffer /\
    length archive = (length buffer - Z.to_nat offset)%nat /\
    (length archive + 12 <= length buffer)%nat.
Proof.
  intros Hfile H.
  destruct (convertCRXtoZIP_Ok _ _ _ _ H) as (buffer' & offset & Hf & Hoff & ->).
  assert (buffer' = buffer) as -> by congruence.
  exists offset, (slice buffer offset).
  assert (12 <= offset /\ (12 <= length buffer)%nat) as [H12 Hlen].
  { destruct (getZipStartOffset_Ok _ _ Hoff)
      as [_ [[_ (pubKeyLen & sigLen & Hp & Hs & ->)]
            |[_ (headerSize & Hh & ->)]]].
    - apply readUInt32LE_Ok in Hp as [? ?], Hs as [? ?]. lia.
    - apply readUInt32LE_Ok in Hh as [? ?]. lia. }
  assert (slice buffer offset = drop (Z.to_nat offset) buffer) as ->.
  { unfold slice. destruct (Z.ltb_spec offset 0); [lia|done]. }
  split; [done|]. split; [cbn; apply lookup_insert_eq|].
  split; [apply take_drop|]. rewrite length_drop. split; lia.
Qed.

End convert_more.

Section convert_samples.
Import Fs.

Lemma convertCRXtoZIP_archive_suffix_witness :
  exists offset archive,
    getZipStartOffset Main.sample_container = Ok offset /\
    files (convertCRXtoZIP "extensions/a.crx" "extensions/a.zip" Main.sample_disk).2
      !! "extensions/a.zip" = Some archive /\
    take (Z.to_nat offset) Main.sample_container ++ archive = Main.sample_container /\
    length archive = (length Main.sample_container - Z.to_nat offset)%nat /\
    (length archive + 12 <= length Main.sample_container)%nat.
Proof.
  apply (convertCRXtoZIP_archive_suffix "extensions/a.crx" "extensions/a.zip"
           Main.sample_disk
           (convertCRXtoZIP "extensions/a.crx" "extensions/a.zip" Main.sample_disk).2
           Main.sample_container).
  - reflexivity.
  - reflexivity.
Defined.

(** X7. A container whose declared lengths reach to its end or past it converts
    without an error, and the archive written is the empty file. *)
Theorem convertCRXtoZIP_offset_past_end
    (crxPath zipPath : string) (st : state) (buffer : Buffer.t) (offset : Z) :
  files st !! crxPath = Some buffer ->
  getZipStartOffset buffer = Ok offset ->
  Z.of_nat (length buffer) <= offset ->
  exists st',
    convertCRXtoZIP crxPath zipPath st = (Ok tt, st') /\
    files st' !! zipPath = Some [].
Proof.
  intros Hfile Hoff Hlen. eexists.
  unfold convertCRXtoZIP, readFileSync. rewrite Hfile, Hoff.
  split; [done|]. cbn. rewrite slice_past_end by done. apply lookup_insert_eq.
Qed.

Lemma convertCRXtoZIP_offset_past_end_witness :
  exists st',
    convertCRXtoZIP "a.crx" "a.zip"
      (Fs.State {[ "a.crx" := magic ++ LE32 3 ++ LE32 100 ]} [])
    = (Ok tt, st') /\
    files st' !! "a.zip" = Some [].
Proof.
  apply (convertCRXtoZIP_offset_past_end "a.crx" "a.zip"
           (Fs.State {[ "a.crx" := magic ++ LE32 3 ++ LE32 100 ]} [])
           (magic ++ LE32 3 ++ LE32 100) 112).
  - reflexivity.
  - reflexivity.
  - simpl. lia.
Defined.

(** X8. Converting a second time, to a path other than the container's, succeeds
    again and leaves every file as the first conversion left it. *)
Theorem convertCRXtoZIP_again (crxPath zipPath : string) (st st1 : state) :
  crxPath <> zipPath ->
  convertCRXtoZIP crxPath zipPath st = (Ok tt, st1) ->
  exists st2,
    convertCRXtoZIP crxPath zipPath st1 = (Ok tt, st2) /\
    files st2 = files st1.
Proof.
  intros Hne H.
  destruct (convertCRXtoZIP_Ok _ _ _ _ H) as (buffer & offset & Hf & Hoff & ->).
  eexists. unfold convertCRXtoZIP at 1, readFileSync. cbn [files console_log].
  cbn [writeFileSync files]. rewrite lookup_insert_ne by done.
  rewrite Hf, Hoff. split; [done|]. cbn. apply insert_insert_eq.
Qed.

Lemma convertCRXtoZIP_again_witness :
  exists st2,
    convertCRXtoZIP "extensions/a.crx" "extensions/a.zip"
      (convertCRXtoZIP "extensions/a.crx" "extensions/a.zip" Main.sample_disk).2
    = (Ok tt, st2) /\
    files st2
    = files (convertCRXtoZIP "extensions/a.crx" "extensions/a.zip" Main.sample_disk).2.
Proof.
  apply (convertCRXtoZIP_again "extensions/a.crx" "extensions/a.zip" Main.sample_disk).
  - discriminate.
  - reflexivity.
Defined.

End convert_samples.

(** ** More on the fetcher *)

Section fetcher_more.
Import Fetch.

Context {world : Type}.
Variable get : world -> string -> options -> result IncomingMessage * world.

Lemma hop_events_cons (opts : options) (url : string) (res : IncomingMessage)
    (hops : list (string * IncomingMessage)) :
  hop_events opts ((url, res) :: hops)
  = EvGet url opts :: EvResume res :: hop_events opts hops.
Proof. reflexivity. Qed.

Lemma redirects_S (k : nat) (url : string) (opts : options) (w : world)
    hops w1 url1 :
  redirects get (S k) url opts w = Some (hops, w1, url1) ->
  exists res w0 location hops',
    get w url opts = (Ok res, w0) /\
    redirect_target res = Some location /\
    redirects get k location opts w0 = Some (hops', w1, url1) /\
    hops = (url, res) :: hops'.
Proof.
  cbn [redirects].
  destruct (get w url opts) as [[res|err] w0]; [|done].
  destruct (redirect_target res) as [location|] eqn:Htarget; [|done].
  destruct (redirects get k location opts w0) as [[[hops' w1'] url1']|]
    eqn:Hrec; [|done].
  intros [= <- <- <-]. by exists res, w0, location, hops'.
Qed.

(** After [k] hops that redirect, an error of the network ends the fetch. *)
Lemma fetchWithRedirect_error_after (k fuel : nat) (url : string)
    (opts : options) (n : Z) (w : world) hops w1 url1 err w2 :
  redirects get k url opts w = Some (hops, w1, url1) ->
  get w1 url1 opts = (Throw err, w2) ->
  Z.of_nat k <= n \/ n < 0 ->
  (k < fuel)%nat ->
  fetchWithRedirect get fuel url (Some opts) (Some n) w
  = Some (Throw err, hop_events opts hops ++ [EvGet url1 opts], w2).
Proof.
  revert fuel url n w hops.
  induction k as [|k IH]; intros fuel url n w hops Hhops Hget Hn Hfuel;
    (destruct fuel as [|fuel]; [lia|]); rewrite fetchWithRedirect_S.
  - injection Hhops as <- <- <-. by rewrite Hget.
  - apply redirects_S in Hhops
      as (res & w0 & location & hops' & -> & -> & Hrec & ->).
    destruct (Z.eqb_spec n 0) as [->|Hne]; [lia|].
    by rewrite (IH fuel location (n - 1) w0 hops') by (done || lia).
Qed.

(** When the first [n + 1] responses all redirect, the budget [n] is used
    up. *)
Lemma fetchWithRedirect_exhausted (fuel : nat) (url : string) (opts : options)
    (n : Z) (w : world) hops w1 url1 :
  0 <= n ->
  redirects get (S (Z.to_nat n)) url opts w = Some (hops, w1, url1) ->
  (Z.to_nat n < fuel)%nat ->
  fetchWithRedirect get fuel url (Some opts) (Some n) w
  = Some (Throw TooManyRedirectsError, hop_events opts hops, w1).
Proof.
  revert url n w hops.
  induction fuel as [|fuel IH]; intros url n w hops Hn Hhops Hfuel; [lia|].
  rewrite fetchWithRedirect_S.
  apply redirects_S in Hhops
    as (res & w0 & location & hops' & -> & -> & Hrec & ->).
  destruct (Z.eqb_spec n 0) as [->|Hne].
  - cbn in Hrec. by injection Hrec as <- <- <-.
  - replace (Z.to_nat n) with (S (Z.to_nat (n - 1))) in Hrec by lia.
    by rewrite (IH location (n - 1) w0 hops') by (done || lia).
Qed.

(** The ways a fetch settles. *)
Lemma fetchWithRedirect_Some (fuel : nat) (url : string) (opts : options)
    (n : Z) (w : world) r trace w' :
  fetchWithRedirect get fuel url (Some opts) (Some n) w = Some (r, trace, w') ->
  exists k hops w1 url1,
    redirects get k url opts w = Some (hops, w1, url1) /\
    ((exists final,
        get w1 url1 opts = (Ok final, w') /\
        redirect_target final = None /\
        r = Ok (as_is final) /\
        trace = hop_events opts hops ++ [EvGet url1 opts] /\
        (Z.of_nat k <= n \/ n < 0)) \/
     (exists err,
        get w1 url1 opts = (Throw err, w') /\
        r = Throw err /\
        trace = hop_events opts hops ++ [EvGet url1 opts] /\
        (Z.of_nat k <= n \/ n < 0)) \/
     (r = Throw TooManyRedirectsError /\
      Z.of_nat k = n + 1 /\ w' = w1 /\
      trace = hop_events opts hops)).
Proof.
  revert url n w r trace w'.
  induction fuel as [|fuel IH]; intros url n w r trace w'; [done|].
  rewrite fetchWithRedirect_S.
  destruct (get w url opts) as [[res|err] w0] eqn:Hget.
  2: { intros [= <- <- <-]. exists 0%nat, [], w, url. split; [done|].
       right. left. exists err. repeat split; try done. lia. }
  destruct (redirect_target res) as [location|] eqn:Htarget.
  2: { intros [= <- <- <-]. exists 0%nat, [], w, url. split; [done|].
       left. exists res. repeat split; try done. lia. }
  destruct (Z.eqb_spec n 0) as [->|Hne].
  { intros [= <- <- <-]. exists 1%nat, [(url, res)], w0, location.
    split; [by cbn; rewrite Hget, Htarget|]. right. right. done. }
  destruct (fetchWithRedirect get fuel location (Some opts) (Some (n - 1)) w0)
    as [[[r1 trace1] w2]|] eqn:Hrec; [|done].
  intros [= <- <- <-].
  apply IH in Hrec as (k & hops & w1 & url1 & Hhops & Hend).
  exists (S k), ((url, res) :: hops), w1, url1.
  split; [by cbn; rewrite Hget, Htarget, Hhops|].
  rewrite hop_events_cons.
  destruct Hend as [(final & ? & ? & ? & -> & ?)
                   |[(err & ? & ? & -> & ?)|(? & ? & ? & ->)]].
  - left. exists final. repeat split; try done. lia.
  - right. left. exists err. repeat split; try done. lia.
  - right. right. repeat split; try done. lia.
Qed.

(** X9. A network error after [k] redirects that the budget allows rejects the
    promise with that error: nothing is retried, the [k + 1] requests sent
    are the whole trace, and every redirect response was drained. *)
Theorem fetchWithRedirect_network_error (k fuel : nat) (url : string)
    (options : option options) (maxRedirects : option Z) (w : world)
    hops w1 url1 err w2 :
  redirects get k url (default (Options ∅) options) w = Some (hops, w1, url1) ->
  get w1 url1 (default (Options ∅) options) = (Throw err, w2) ->
  Z.of_nat k <= default 5 maxRedirects \/ default 5 maxRedirects < 0 ->
  (k < fuel)%nat ->
  fetchWithRedirect get fuel url options maxRedirects w
  = Some (Throw err,
          hop_events (default (Options ∅) options) hops
            ++ [EvGet url1 (default (Options ∅) options)], w2).
Proof.
  intros. rewrite fetchWithRedirect_defaults.
  by eapply fetchWithRedirect_error_after.
Qed.

(** X10. When the first [n + 1] responses of a chain all redirect, the fetch with
    budget [n >= 0] fails with "Too many redirects" whatever would come next:
    it has sent [n + 1] requests and drained each response. *)
Theorem fetchWithRedirect_budget_exhausted (fuel : nat) (url : string)
    (options : option options) (maxRedirects : option Z) (w : world)
    hops w1 url1 :
  0 <= default 5 maxRedirects ->
  redirects get (S (Z.to_nat (default 5%Z maxRedirects))) url
    (default (Options ∅) options) w = Some (hops, w1, url1) ->
  (Z.to_nat (default 5%Z maxRedirects) < fuel)%nat ->
  fetchWithRedirect get fuel url options maxRedirects w
  = Some (Throw TooManyRedirectsError,
          hop_events (default (Options ∅) options) hops, w1) /\
  length (requests (hop_events (default (Options ∅) options) hops))
  = S (Z.to_nat (default 5%Z maxRedirects)).
Proof.
  intros Hn Hhops Hfuel. rewrite fetchWithRedirect_defaults. split.
  - by eapply fetchWithRedirect_exhausted.
  - rewrite requests_hop_events, length_fmap.
    exact (redirects_length _ _ _ _ _ _ _ _ Hhops).
Qed.

(** X11. Every fetch that settles has followed some [k] redirects and then ended
    in one of three ways: with the first response that is not a redirect,
    returned as it is; with the first error of the network; or, when [k] is
    the budget plus one, with "Too many redirects". In each case every
    response but a returned one was drained. *)
Theorem fetchWithRedirect_settled (fuel : nat) (url : string)
    (options : option options) (maxRedirects : option Z) (w : world)
    r trace w' :
  fetchWithRedirect get fuel url options maxRedirects w = Some (r, trace, w') ->
  exists k hops w1 url1,
    redirects get k url (default (Options ∅) options) w = Some (hops, w1, url1) /\
    ((exists final,
        get w1 url1 (default (Options ∅) options) = (Ok final, w') /\
        redirect_target final = None /\
        r = Ok (as_is final) /\
        trace = hop_events (default (Options ∅) options) hops
                  ++ [EvGet url1 (default (Options ∅) options)] /\
        (Z.of_nat k <= default 5 maxRedirects \/ default 5 maxRedirects < 0)) \/
     (exists err,
        get w1 url1 (default (Options ∅) options) = (Throw err, w') /\
        r = Throw err /\
        trace = hop_events (default (Options ∅) options) hops
                  ++ [EvGet url1 (default (Options ∅) options)] /\
        (Z.of_nat k <= default 5 maxRedirects \/ default 5 maxRedirects < 0)) \/
     (r = Throw TooManyRedirectsError /\
      Z.of_nat k = default 5 maxRedirects + 1 /\ w' = w1 /\
      trace = hop_events (default (Options ∅) options) hops)).
Proof.
  rewrite fetchWithRedirect_defaults. apply fetchWithRedirect_Some.
Qed.

(** X12. A negative budget never reaches zero: on a network where every response
    redirects, the fetch does not settle, however many requests it may
    send. *)
Theorem fetchWithRedirect_negative_budget_loops (fuel : nat) (url : string)
    (options : option options) (n : Z) (w : world) :
  always_redirects get -> n < 0 ->
  fetchWithRedirect get fuel url options (Some n) w = None.
Proof.
  intros Hloop Hn. rewrite fetchWithRedirect_defaults.
  by apply fetchWithRedirect_negative_budget.
Qed.

End fetcher_more.

Section fetcher_samples.
Import Fetch.

Lemma fetchWithRedirect_network_error_witness :
  fetchWithRedirect scripted_get 2 "https://a.example/crx" None None
    [found "https://b.example/crx"]
  = Some (Throw (Error "read ECONNRESET"),
          hop_events (default (Options ∅) None)
            [("https://a.example/crx", found "https://b.example/crx")]
            ++ [EvGet "https://b.example/crx" (default (Options ∅) None)], []).
Proof.
  apply (fetchWithRedirect_network_error scripted_get 1 2
           "https://a.example/crx" None None [found "https://b.example/crx"]
           [("https://a.example/crx", found "https://b.example/crx")]
           [] "https://b.example/crx" (Error "read ECONNRESET") []).
  - reflexivity.
  - reflexivity.
  - left. simpl. lia.
  - lia.
Defined.

Lemma fetchWithRedirect_budget_exhausted_witness :
  fetchWithRedirect loop_get 2 "https://a.example/crx" None (Some 1) tt
  = Some (Throw TooManyRedirectsError,
          hop_events (default (Options ∅) None)
            [("https://a.example/crx", found "https://clients2.google.com/loop");
             ("https://clients2.google.com/loop",
              found "https://clients2.google.com/loop")], tt) /\
  length (requests
            (hop_events (default (Options ∅) None)
               [("https://a.example/crx",
                 found "https://clients2.google.com/loop");
                ("https://clients2.google.com/loop",
                 found "https://clients2.google.com/loop")]))
  = S (Z.to_nat (default 5%Z (Some 1))).
Proof.
  apply (fetchWithRedirect_budget_exhausted loop_get 2 "https://a.example/crx"
           None (Some 1) tt _ tt "https://clients2.google.com/loop").
  - simpl. lia.
  - reflexivity.
  - simpl. lia.
Defined.

Lemma fetchWithRedirect_settled_witness :
  exists k hops w1 url1,
    redirects scripted_get k "https://a.example/crx" (default (Options ∅) None)
      Main.sample_script = Some (hops, w1, url1) /\
    ((exists final,
        scripted_get w1 url1 (default (Options ∅) None) = (Ok final, []) /\
        redirect_target final = None /\
        Ok (as_is (ok Main.sample_container)) = Ok (as_is final) /\
        [EvGet "https://a.example/crx" (Options ∅);
         EvResume (found "https://b.example/crx");
         EvGet "https://b.example/crx" (Options ∅);
         EvResume (found "https://c.example/crx");
         EvGet "https://c.example/crx" (Options ∅)]
        = hop_events (default (Options ∅) None) hops
            ++ [EvGet url1 (default (Options ∅) None)] /\
        (Z.of_nat k <= default 5 None \/ default 5 None < 0)) \/
     (exists err,
        scripted_get w1 url1 (default (Options ∅) None) = (Throw err, []) /\
        Ok (as_is (ok Main.sample_container)) = Throw err /\
        [EvGet "https://a.example/crx" (Options ∅);
         EvResume (found "https://b.example/crx");
         EvGet "https://b.example/crx" (Options ∅);
         EvResume (found "https://c.example/crx");
         EvGet "https://c.example/crx" (Options ∅)]
        = hop_events (default (Options ∅) None) hops
            ++ [EvGet url1 (default (Options ∅) None)] /\
        (Z.of_nat k <= default 5 None \/ default 5 None < 0)) \/
     (Ok (as_is (ok Main.sample_container)) = Throw TooManyRedirectsError /\
      Z.of_nat k = default 5 None + 1 /\ [] = w1 /\
      [EvGet "https://a.example/crx" (Options ∅);
       EvResume (found "https://b.example/crx");
       EvGet "https://b.example/crx" (Options ∅);
       EvResume (found "https://c.example/crx");
       EvGet "https://c.example/crx" (Options ∅)]
      = hop_events (default (Options ∅) None) hops)).
Proof.
  apply (fetchWithRedirect_settled scripted_get 3 "https://a.example/crx"
           None None Main.sample_script).
  reflexivity.
Defined.

Lemma fetchWithRedirect_negative_budget_loops_witness :
  fetchWithRedirect loop_get 50 "https://a.example/crx" None (Some (-1)) tt
  = None.
Proof.
  apply (fetchWithRedirect_negative_budget_loops loop_get 50
           "https://a.example/crx" None (-1) tt).
  - intros w url opts.
    exists (found "https://clients2.google.com/loop"), w,
      "https://clients2.google.com/loop".
    split; reflexivity.
  - lia.
Defined.

End fetcher_samples.

(** ** The download *)

Section download.
Import Fetch Main.

Context {world : Type}.
Variable get : world -> string -> options -> result IncomingMessage * world.

Lemma downloadCRX_unfold (fuel : nat)
    (extensionId chromeVersion outputFilename : string)
    (w : world) (st : Fs.state) :
  downloadCRX get fuel extensionId chromeVersion outputFilename w st
  = let st :=
      Fs.console_log ("Attempting CRX download from: "
                      +:+ download_url extensionId chromeVersion) st in
    match fetchWithRedirect get fuel (download_url extensionId chromeVersion)
            (Some (download_options chromeVersion)) (Some 5) w with
    | None => None
    | Some (Throw e, trace, w) => Some (Throw e, trace, w, st)
    | Some (Ok response, trace, w) =>
        if negb (statusCode response =? 200) then
          Some (Throw (Error ("Download failed, final status code: "
                              +:+ pretty (statusCode response))),
                trace ++ [EvResume (bodyStream response)], w, st)
        else
          Some (Ok tt, trace, w,
                Fs.console_log ("CRX file saved to: " +:+ outputFilename)
                  (Fs.writeFileSync outputFilename
                     (res_body (bodyStream response)) st))
    end.
Proof.
  unfold downloadCRX. rewrite fetchWithRedirect_defaults. reflexivity.
Qed.


Lemma fetchWithRedirect_first_request (fuel : nat) (url : string)
    (opts : options) (n : Z) (w : world) r trace w' :
  fetchWithRedirect get fuel url (Some opts) (Some n) w = Some (r, trace, w') ->
  exists rest, trace = EvGet url opts :: rest.
Proof.
  destruct fuel as [|fuel]; [done|]. rewrite fetchWithRedirect_S.
  destruct (get w url opts) as [[res|err] w0]; [|intros [= <- <- <-]; eauto].
  destruct (redirect_target res) as [location|];
    [|intros [= <- <- <-]; eauto].
  destruct (n =? 0); [intros [= <- <- <-]; eauto|].
  destruct (fetchWithRedirect get fuel location (Some opts) (Some (n - 1)) w0)
    as [[[r1 trace1] w2]|]; [|done].
  intros [= <- <- <-]. eauto.
Qed.



Lemma downloadCRX_chain_not_200 (k fuel : nat)
    (extensionId chromeVersion outputFilename : string)
    (w : world) (st : Fs.state) hops w1 url1 final w2 :
  redirects get k (download_url extensionId chromeVersion)
    (download_options chromeVersion) w = Some (hops, w1, url1) ->
  get w1 url1 (download_options chromeVersion) = (Ok final, w2) ->
  redirect_target final = None ->
  res_statusCode final <> 200 ->
  (k <= 5)%nat -> (k < fuel)%nat ->
  exists st',
    downloadCRX get fuel extensionId chromeVersion outputFilename w st
    = Some (Throw (Error ("Download failed, final status code: "
                          +:+ pretty (res_statusCode final))),
            hop_events (download_options chromeVersion) hops
              ++ [EvGet url1 (download_options chromeVersion); EvResume final],
            w2, st') /\
    Fs.files st' = Fs.files st.
Proof.
  intros Hhops Hget Htarget Hstatus Hk Hfuel.
  rewrite downloadCRX_unfold. cbn zeta.
  rewrite (fetchWithRedirect_chain get k fuel _ _ 5 w hops w1 url1 final w2)
    by (done || lia).
  cbn [as_is statusCode bodyStream].
  destruct (Z.eqb_spec (res_statusCode final) 200); [done|]. cbn [negb].
  eexists. split; [by rewrite <- app_assoc|done].
Qed.

(** X14. A download whose chain ends in a response that is not a redirect and
    whose status is not 200 fails with "Download failed, final status code:"
    and that status; the body of the response is drained and no file is
    written. *)
Theorem downloadCRX_bad_status (k fuel : nat)
    (extensionId chromeVersion outputFilename : string)
    (w : world) (st : Fs.state) hops w1 url1 final w2 :
  redirects get k (download_url extensionId chromeVersion)
    (download_options chromeVersion) w = Some (hops, w1, url1) ->
  get w1 url1 (download_options chromeVersion) = (Ok final, w2) ->
  redirect_target final = None ->
  res_statusCode final <> 200 ->
  (k <= 5)%nat -> (k < fuel)%nat ->
  exists st',
    downloadCRX get fuel extensionId chromeVersion outputFilename w st
    = Some (Throw (Error ("Download failed, final status code: "
                          +:+ pretty (res_statusCode final))),
            hop_events (download_options chromeVersion) hops
              ++ [EvGet url1 (download_options chromeVersion); EvResume final],
            w2, st') /\
    Fs.files st' = Fs.files st.
Proof. apply downloadCRX_chain_not_200. Qed.



(** X16. Six redirects in a row are one more than a download follows: it fails
    with "Too many redirects" after 6 requests and writes no file. *)
Theorem downloadCRX_six_redirects (fuel : nat)
    (extensionId chromeVersion outputFilename : string)
    (w : world) (st : Fs.state) hops w1 url1 :
  redirects get 6 (download_url extensionId chromeVersion)
    (download_options chromeVersion) w = Some (hops, w1, url1) ->
  (5 < fuel)%nat ->
  exists st',
    downloadCRX get fuel extensionId chromeVersion outputFilename w st
    = Some (Throw TooManyRedirectsError,
            hop_events (download_options chromeVersion) hops, w1, st') /\
    length (requests (hop_events (download_options chromeVersion) hops))
    = 6%nat /\
    Fs.files st' = Fs.files st.
Proof.
  intros Hhops Hfuel. rewrite downloadCRX_unfold. cbn zeta.
  rewrite (fetchWithRedirect_exhausted get fuel _ _ 5 w hops w1 url1)
    by (done || lia).
  eexists. split; [done|]. split; [|done].
  rewrite requests_hop_events, length_fmap.
  exact (redirects_length _ _ _ _ _ _ _ _ Hhops).
Qed.

(** X17. Every request of a download, the first and each one that follows a
    redirect, carries the Chrome user agent of the version given and
    [Accept: */*]; the first goes to the update URL. *)
Theorem downloadCRX_identity (fuel : nat)
    (extensionId chromeVersion outputFilename : string)
    (w : world) (st : Fs.state) r trace w' st' :
  downloadCRX get fuel extensionId chromeVersion outputFilename w st
  = Some (r, trace, w', st') ->
  Forall (fun request =>
            req_headers request.2 !! "User-Agent"
            = Some (user_agent chromeVersion) /\
            req_headers request.2 !! "Accept" = Some "*/*")
    (requests trace) /\
  head (requests trace)
  = Some (download_url extensionId chromeVersion,
          download_options chromeVersion).
Proof.
  rewrite downloadCRX_unfold. cbn zeta.
  destruct (fetchWithRedirect get fuel _ _ _ w)
    as [[[r1 trace1] w1]|] eqn:Hfetch; [|by destruct fuel].
  pose proof (fetchWithRedirect_same_options _ _ _ _ _ _ _ _ _ Hfetch) as Hopts.
  pose proof (fetchWithRedirect_first_request _ _ _ _ _ _ _ _ Hfetch)
    as [rest Hfirst].
  assert (Forall (fun request : string * options =>
                    req_headers request.2 !! "User-Agent"
                    = Some (user_agent chromeVersion) /\
                    req_headers request.2 !! "Accept" = Some "*/*")
            (requests trace1) /\
          head (requests trace1)
          = Some (download_url extensionId chromeVersion,
                  download_options chromeVersion)) as Htrace1.
  { split; [|by rewrite Hfirst].
    eapply Forall_impl; [exact Hopts|]. intros request ->. cbn.
    split; [apply lookup_insert_eq|].
    rewrite lookup_insert_ne by done. apply lookup_singleton_eq. }
  destruct r1 as [response|e].
  - destruct (negb (statusCode response =? 200)); intros [= <- <- <- <-].
    + by rewrite requests_app, app_nil_r.
    + done.
  - by intros [= <- <- <- <-].
Qed.

End download.

Section download_samples.
Import Fetch Main.


Lemma downloadCRX_bad_status_witness :
  exists st',
    downloadCRX scripted_get 2 "abc" "114.0.5735.133" "extensions/a.crx"
      [found "https://b.example/crx"; Response 404 ∅ []] (Fs.State ∅ [])
    = Some (Throw (Error ("Download failed, final status code: "
                          +:+ pretty (res_statusCode (Response 404 ∅ [])))),
            hop_events (download_options "114.0.5735.133")
              [(download_url "abc" "114.0.5735.133",
                found "https://b.example/crx")]
              ++ [EvGet "https://b.example/crx"
                    (download_options "114.0.5735.133");
                  EvResume (Response 404 ∅ [])],
            [], st') /\
    Fs.files st' = Fs.files (Fs.State ∅ []).
Proof.
  apply (downloadCRX_bad_status scripted_get 1 2 "abc" "114.0.5735.133"
           "extensions/a.crx"
           [found "https://b.example/crx"; Response 404 ∅ []] (Fs.State ∅ [])
           [(download_url "abc" "114.0.5735.133", found "https://b.example/crx")]
           [Response 404 ∅ []] "https://b.example/crx" (Response 404 ∅ []) []).
  - reflexivity.
  - reflexivity.
  - reflexivity.
  - discriminate.
  - lia.
  - lia.
Defined.


Lemma downloadCRX_six_redirects_witness :
  exists st',
    downloadCRX loop_get 6 "abc" "114.0.5735.133" "extensions/a.crx" tt
      (Fs.State ∅ [])
    = Some (Throw TooManyRedirectsError,
            hop_events (download_options "114.0.5735.133")
              ((download_url "abc" "114.0.5735.133",
                found "https://clients2.google.com/loop")
               :: replicate 5 ("https://clients2.google.com/loop",
                               found "https://clients2.google.com/loop")),
            tt, st') /\
    length (requests
              (hop_events (download_options "114.0.5735.133")
                 ((download_url "abc" "114.0.5735.133",
                   found "https://clients2.google.com/loop")
                  :: replicate 5 ("https://clients2.google.com/loop",
                                  found "https://clients2.google.com/loop"))))
    = 6%nat /\
    Fs.files st' = Fs.files (Fs.State ∅ []).
Proof.
  apply (downloadCRX_six_redirects loop_get 6 "abc" "114.0.5735.133"
           "extensions/a.crx" tt (Fs.State ∅ [])
           ((download_url "abc" "114.0.5735.133",
             found "https://clients2.google.com/loop")
            :: replicate 5 ("https://clients2.google.com/loop",
                            found "https://clients2.google.com/loop"))
           tt "https://clients2.google.com/loop").
  - reflexivity.
  - lia.
Defined.

Lemma downloadCRX_identity_witness :
  Forall (fun request : string * options =>
            req_headers request.2 !! "User-Agent"
            = Some (user_agent "114.0.5735.133") /\
            req_headers request.2 !! "Accept" = Some "*/*")
    (requests [EvGet (download_url "abc" "114.0.5735.133")
                 (download_options "114.0.5735.133")]) /\
  head (requests [EvGet (download_url "abc" "114.0.5735.133")
                    (download_options "114.0.5735.133")])
  = Some (download_url "abc" "114.0.5735.133",
          download_options "114.0.5735.133").
Proof.
  apply (downloadCRX_identity scripted_get 1 "abc" "114.0.5735.133"
           "extensions/a.crx" [] (Fs.State ∅ [])
           (Throw (Error "read ECONNRESET"))
           [EvGet (download_url "abc" "114.0.5735.133")
              (download_options "114.0.5735.133")] []
           (Fs.console_log
              ("Attempting CRX download from: "
               +:+ download_url "abc" "114.0.5735.133") (Fs.State ∅ []))).
  reflexivity.
Defined.

End download_samples.

(** ** The id and the name taken from the URL *)

Section derivation.
Import Main.

Lemma split_not_nil (sep : Ascii.ascii) (s : string) : split sep s <> [].
Proof.
  destruct s as [|c s]; [done|]. cbn [split].
  destruct (Ascii.eqb c sep); [done|]. by destruct (split sep s).
Qed.

Lemma split_app (sep : Ascii.ascii) (a b : string) :
  split sep (a +:+ String sep b) = split sep a ++ split sep b.
Proof.
  induction a as [|c a IH]; simpl.
  - by rewrite Ascii.eqb_refl.
  - destruct (Ascii.eqb c sep); rewrite IH; [done|].
    pose proof (split_not_nil sep a). by destruct (split sep a).
Qed.

Lemma split_no_sep (sep : Ascii.ascii) (s : string) :
  sep ∉ String.list_ascii_of_string s -> split sep s = [s].
Proof.
  induction s as [|c s IH]; [done|].
  cbn [split String.list_ascii_of_string]. intros Hnotin.
  apply not_elem_of_cons in Hnotin as [Hne Hnotin].
  destruct (Ascii.eqb_spec c sep) as [->|_]; [done|]. by rewrite IH.
Qed.

Lemma url_parts_app (a b : string) :
  url_parts (a +:+ "/" +:+ b) = url_parts a ++ url_parts b.
Proof.
  unfold url_parts, filter_Boolean.
  change (a +:+ "/" +:+ b) with (a +:+ String slash b).
  by rewrite split_app, filter_app.
Qed.

Lemma url_parts_no_slash (s : string) :
  s <> "" -> slash ∉ String.list_ascii_of_string s -> url_parts s = [s].
Proof.
  intros Hne Hnotin. unfold url_parts, filter_Boolean.
  rewrite split_no_sep by done. by rewrite filter_cons_True.
Qed.

Lemma url_parts_slash (a : string) : url_parts (a +:+ "/") = url_parts a.
Proof.
  change (a +:+ "/") with (a +:+ "/" +:+ "").
  rewrite url_parts_app. apply app_nil_r.
Qed.

Lemma sanitize_word_chars (name : string) :
  Forall (fun c => word_char c = true)
    (String.list_ascii_of_string (sanitize name)).
Proof.
  induction name as [|c name IH]; cbn; [done|].
  destruct (word_char c) eqn:Hc; [|done]. cbn. by constructor.
Qed.

(** X18. The name guessed for the files has no character outside
    [[a-zA-Z0-9_-]], whatever the URL: in particular no slash, no dot and no
    backslash, so each file name built from it is one path segment. *)
Theorem guessed_name_word_chars (extensionUrl : string) :
  Forall (fun c => word_char c = true)
    (String.list_ascii_of_string (guessed_name extensionUrl)) /\
  (slash ∉ String.list_ascii_of_string (guessed_name extensionUrl)) /\
  (Ascii.ascii_of_nat 46
     ∉ String.list_ascii_of_string (guessed_name extensionUrl)) /\
  (Ascii.ascii_of_nat 92
     ∉ String.list_ascii_of_string (guessed_name extensionUrl)).
Proof.
  pose proof (sanitize_word_chars
                (let parts := url_parts extensionUrl in
                 if (2 <=? length parts)%nat
                 then default "extension" (parts !! (length parts - 2)%nat)
                 else "extension")) as H.
  change (sanitize _) with (guessed_name extensionUrl) in H.
  split; [done|].
  rewrite Forall_forall in H.
  repeat split; intros Hin; by apply H in Hin.
Qed.

(** X19. For a URL that ends in [/name/id], with or without a slash after it, the
    extension id is [id] and the name guessed is [name] without the characters
    outside [[a-zA-Z0-9_-]]. *)
Theorem extension_id_and_name (base name id : string) :
  name <> "" -> id <> "" ->
  slash ∉ String.list_ascii_of_string name ->
  slash ∉ String.list_ascii_of_string id ->
  extension_id (base +:+ "/" +:+ name +:+ "/" +:+ id) = id /\
  guessed_name (base +:+ "/" +:+ name +:+ "/" +:+ id) = sanitize name /\
  extension_id ((base +:+ "/" +:+ name +:+ "/" +:+ id) +:+ "/") = id /\
  guessed_name ((base +:+ "/" +:+ name +:+ "/" +:+ id) +:+ "/") = sanitize name.
Proof.
  intros Hname Hid Hn Hi.
  assert (url_parts (base +:+ "/" +:+ name +:+ "/" +:+ id)
          = url_parts base ++ [name; id]) as Hparts.
  { by rewrite !url_parts_app, (url_parts_no_slash name),
      (url_parts_no_slash id). }
  unfold extension_id, guessed_name. rewrite url_parts_slash, Hparts.
  rewrite length_app. cbn [length].
  replace (length (url_parts base) + 2 - 1)%nat
    with (length (url_parts base) + 1)%nat by lia.
  replace (length (url_parts base) + 2 - 2)%nat
    with (length (url_parts base) + 0)%nat by lia.
  rewrite !lookup_app_r, !Nat.add_sub' by lia.
  destruct (Nat.leb_spec 2 (length (url_parts base) + 2)); [done|lia].
Qed.

Lemma extension_id_and_name_witness :
  extension_id
    ("https://chromewebstore.google.com/detail" +:+ "/"
     +:+ "twitterx-feed-blocker" +:+ "/" +:+ "iofjnhbihgjfhdldcnlmjbfmighljfob")
  = "iofjnhbihgjfhdldcnlmjbfmighljfob" /\
  guessed_name
    ("https://chromewebstore.google.com/detail" +:+ "/"
     +:+ "twitterx-feed-blocker" +:+ "/" +:+ "iofjnhbihgjfhdldcnlmjbfmighljfob")
  = sanitize "twitterx-feed-blocker" /\
  extension_id
    (("https://chromewebstore.google.com/detail" +:+ "/"
      +:+ "twitterx-feed-blocker" +:+ "/" +:+ "iofjnhbihgjfhdldcnlmjbfmighljfob")
     +:+ "/")
  = "iofjnhbihgjfhdldcnlmjbfmighljfob" /\
  guessed_name
    (("https://chromewebstore.google.com/detail" +:+ "/"
      +:+ "twitterx-feed-blocker" +:+ "/" +:+ "iofjnhbihgjfhdldcnlmjbfmighljfob")
     +:+ "/")
  = sanitize "twitterx-feed-blocker".
Proof.
  apply (extension_id_and_name "https://chromewebstore.google.com/detail"
           "twitterx-feed-blocker" "iofjnhbihgjfhdldcnlmjbfmighljfob").
  - discriminate.
  - discriminate.
  - apply (bool_decide_unpack _). by vm_compute.
  - apply (bool_decide_unpack _). by vm_compute.
Defined.

(** X20. A URL without any slash is taken whole as the extension id, and the name
    falls back to ["extension"]; a URL with nothing between its slashes (the
    empty string included) gives the id printed as ["undefined"]. *)
Theorem extension_id_fallback (extensionUrl : string) :
  (extensionUrl <> "" ->
   slash ∉ String.list_ascii_of_string extensionUrl ->
   extension_id extensionUrl = extensionUrl /\
   guessed_name extensionUrl = "extension") /\
  (url_parts extensionUrl = [] ->
   extension_id extensionUrl = "undefined" /\
   guessed_name extensionUrl = "extension").
Proof.
  split.
  - intros Hne Hnotin. unfold extension_id, guessed_name.
    by rewrite url_parts_no_slash.
  - intros Hparts. unfold extension_id, guessed_name. by rewrite Hparts.
Qed.

End derivation.

Section derivation_samples.
Import Main.

Lemma extension_id_fallback_witness :
  extension_id "iofjnhbihgjfhdldcnlmjbfmighljfob"
  = "iofjnhbihgjfhdldcnlmjbfmighljfob" /\
  guessed_name "iofjnhbihgjfhdldcnlmjbfmighljfob" = "extension".
Proof.
  apply (proj1 (extension_id_fallback "iofjnhbihgjfhdldcnlmjbfmighljfob")).
  - discriminate.
  - apply (bool_decide_unpack _). by vm_compute.
Defined.

End derivation_samples.

(** ** The whole run *)

Section orchestrator.
Import Fetch Main.

Context {world : Type}.
Variable get : world -> string -> options -> result IncomingMessage * world.
Variable join : string -> string -> string.
Variable node_message : exn -> string.












(** A missing or empty version argument means version 114.0.5735.133: the
    run is the same as with that version given. *)
Example main_default_version (fuel : nat) (node script extensionUrl : string)
    (rest : list string) (w : world) (st : state) :
  main get join node_message fuel [node; script; extensionUrl] w st
  = main get join node_message fuel
      (node :: script :: extensionUrl :: "114.0.5735.133" :: rest) w st /\
  main get join node_message fuel
    (node :: script :: extensionUrl :: "" :: rest) w st
  = main get join node_message fuel
      (node :: script :: extensionUrl :: "114.0.5735.133" :: rest) w st.
Proof. by split. Qed.

End orchestrator.

Section orchestrator_samples.
Import Fetch Main.






End orchestrator_samples.
